(** * A fixed-window rate limiter backed by a shared counting store

    Shallow embedding of [simple-rate-limiter.js]: the tier tables, the
    window clock, [checkRateLimit] with its try/catch around the two store
    commands, and the [/api/resource] handler that renders a decision.

    JavaScript values are modelled by a small value type; numbers that the
    program handles are integers (timestamps in milliseconds, counts,
    quotas, window lengths), all far below 2^53, and are modelled in [Z].
    [Math.floor (a / b)] on such integers is the floor division [Z.div]. *)

From Stdlib Require Import ZArith Lia Bool List Ascii String.
From stdpp Require Import base option gmap strings pretty.

Import ListNotations.
Open Scope string_scope.
Open Scope list_scope.
Open Scope Z_scope.

Set Warnings "-register-all".

(** ** JavaScript values *)

Module JS.

(** The values the program manipulates.  [JFun name] is a built-in
    function named [name]; [JObjectPrototype] is the object
    [Object.prototype] itself; [JObj] is a plain object given by its own
    properties in source order. *)
Inductive jsval : Type :=
| JUndefined
| JBool (b : bool)
| JNum (n : Z)
| JNaN
| JStr (s : string)
| JFun (name : string)
| JObjectPrototype
| JObj (props : list (string * jsval)).

Definition jsobj : Type := list (string * jsval).

(** ToBoolean. *)
Definition truthy (v : jsval) : bool :=
  match v with
  | JUndefined => false
  | JBool b => b
  | JNum n => negb (n =? 0)
  | JNaN => false
  | JStr s => match s with EmptyString => false | String _ _ => true end
  | JFun _ | JObjectPrototype | JObj _ => true
  end.

(** [a || b]. *)
Definition js_or (a b : jsval) : jsval := if truthy a then a else b.

(** ToString, as used for property keys and template literals. *)
Definition js_toString (v : jsval) : string :=
  match v with
  | JUndefined => "undefined"
  | JBool true => "true"
  | JBool false => "false"
  | JNum n => pretty n
  | JNaN => "NaN"
  | JStr s => s
  | JFun name => "function " +:+ name +:+ "() { [native code] }"
  | JObjectPrototype | JObj _ => "[object Object]"
  end.

(** ToNumber, [None] standing for NaN.  Strings never reach an arithmetic
    position in this program (the limit table holds numbers and
    [Object.prototype] holds functions); they are sent to NaN. *)
Definition js_toNumber (v : jsval) : option Z :=
  match v with
  | JNum n => Some n
  | JBool b => Some (if b then 1 else 0)
  | _ => None
  end.

(** [a > b]: false as soon as one side is NaN. *)
Definition js_gt (a b : jsval) : bool :=
  match js_toNumber a, js_toNumber b with
  | Some x, Some y => y <? x
  | _, _ => false
  end.

(** [a - b]. *)
Definition js_sub (a b : jsval) : jsval :=
  match js_toNumber a, js_toNumber b with
  | Some x, Some y => JNum (x - y)
  | _, _ => JNaN
  end.

(** Own properties of an object literal. *)
Fixpoint own (o : jsobj) (k : string) : option jsval :=
  match o with
  | [] => None
  | (k', v) :: rest => if String.eqb k' k then Some v else own rest k
  end.

(** The properties every object literal inherits from [Object.prototype].
    [__proto__] is an accessor whose getter returns the prototype of the
    receiver, which for an object literal is [Object.prototype]. *)
Definition Object_prototype : jsobj :=
  [ ("constructor", JFun "Object");
    ("__defineGetter__", JFun "__defineGetter__");
    ("__defineSetter__", JFun "__defineSetter__");
    ("hasOwnProperty", JFun "hasOwnProperty");
    ("__lookupGetter__", JFun "__lookupGetter__");
    ("__lookupSetter__", JFun "__lookupSetter__");
    ("isPrototypeOf", JFun "isPrototypeOf");
    ("propertyIsEnumerable", JFun "propertyIsEnumerable");
    ("toString", JFun "toString");
    ("valueOf", JFun "valueOf");
    ("__proto__", JObjectPrototype);
    ("toLocaleString", JFun "toLocaleString") ].

(** [o[k]] on an object literal: own properties, then the prototype. *)
Definition get (o : jsobj) (k : string) : jsval :=
  match own o k with
  | Some v => v
  | None =>
      match own Object_prototype k with
      | Some v => v
      | None => JUndefined
      end
  end.

(** [s.substring(0, n)]. *)
Definition substring0 (n : nat) (s : string) : string := String.substring 0 n s.

(** *** parseInt with no radix argument

    Leading white space is skipped (the ASCII white space characters), a
    sign is read, a [0x] prefix selects radix 16, and the longest prefix
    of digits is the value; no digit at all gives NaN ([None]).  An absent
    argument is first converted to the string "undefined".

    The value is the exact integer.  The code's result is the double
    nearest to it, which is the same number as long as its magnitude is
    at most 2^53; the code also skips the white space characters outside
    ASCII.  Statements that read a numeral back are made within these
    bounds. *)

Definition is_space (a : ascii) : bool :=
  let n := Z.of_nat (nat_of_ascii a) in
  ((9 <=? n) && (n <=? 13)) || (n =? 32).

Fixpoint trim_start (s : string) : string :=
  match s with
  | String a rest => if is_space a then trim_start rest else s
  | EmptyString => s
  end.

Definition digit_value (radix : Z) (a : ascii) : option Z :=
  let n := Z.of_nat (nat_of_ascii a) in
  let v :=
    if (48 <=? n) && (n <=? 57) then Some (n - 48)
    else if (97 <=? n) && (n <=? 122) then Some (n - 87)
    else if (65 <=? n) && (n <=? 90) then Some (n - 55)
    else None in
  match v with
  | Some d => if d <? radix then Some d else None
  | None => None
  end.

Fixpoint digits (radix : Z) (s : string) (acc : option Z) : option Z :=
  match s with
  | String a rest =>
      match digit_value radix a with
      | Some d =>
          digits radix rest
                 (Some (match acc with Some n => n * radix + d | None => d end))
      | None => acc
      end
  | EmptyString => acc
  end.

Definition parseInt (input : option string) : option Z :=
  let s := trim_start (match input with Some s => s | None => "undefined" end) in
  let '(sign, s) :=
    match s with
    | String "-" rest => (-1, rest)
    | String "+" rest => (1, rest)
    | _ => (1, s)
    end in
  let '(radix, s) :=
    match s with
    | String "0" (String "x" rest) => (16, rest)
    | String "0" (String "X" rest) => (16, rest)
    | _ => (10, s)
    end in
  match digits radix s None with
  | Some n => Some (sign * n)
  | None => None
  end.

End JS.

Import JS.

(** ** Configuration and tier tables *)

(** [const WINDOW_SIZE = parseInt(process.env.WINDOW_SIZE) || 60]; the
    argument is the value of the environment variable, [None] when unset.
    NaN and 0 are the falsy numbers. *)
Definition WINDOW_SIZE (env : option string) : Z :=
  match parseInt env with
  | Some n => if n =? 0 then 60 else n
  | None => 60
  end.

Definition API_KEYS : jsobj :=
  [ ("sk_test_free_1", JStr "free");
    ("sk_test_free_2", JStr "free");
    ("sk_test_premium_1", JStr "premium");
    ("sk_test_premium_2", JStr "premium");
    ("sk_test_enterprise_1", JStr "enterprise") ].

Definition TIER_LIMITS : jsobj :=
  [ ("free", JNum 5);
    ("premium", JNum 20);
    ("enterprise", JNum 100) ].

(** [return API_KEYS[apiKey] || 'free'] *)
Definition getTierFromAPIKey (apiKey : string) : jsval :=
  js_or (get API_KEYS apiKey) (JStr "free").

(** [return TIER_LIMITS[getTierFromAPIKey(apiKey)]] *)
Definition getRateLimitForAPIKey (apiKey : string) : jsval :=
  let tier := getTierFromAPIKey apiKey in
  get TIER_LIMITS (js_toString tier).

(** [Math.floor(Date.now() / (WINDOW_SIZE * 1000))], [now] being the
    reading of [Date.now()]. *)
Definition getCurrentWindow (env : option string) (now : Z) : Z :=
  now / (WINDOW_SIZE env * 1000).

(** ** Effects: store commands, log events, exceptions

    An [async] function that awaits one promise after another is a
    sequential computation over the world outside the process: the store,
    the commands sent to it and the events handed to the logger.  A
    rejected promise is a thrown error. *)

Record js_error : Type := JsError { err_message : string; err_stack : string }.

Inductive completion (A : Type) : Type :=
| Normal (a : A)
| Throw (e : js_error).
Arguments Normal {A} a.
Arguments Throw {A} e.

Inductive command : Type :=
| Incr (key : string)
| Expire (key : string) (seconds : Z).

Inductive level : Type := LDebug | LInfo | LWarn | LError.

Record log_entry : Type :=
  Log { log_level : level; log_message : string; log_meta : jsobj }.

(** The two commands [checkRateLimit] sends through [redisClient].  The
    client either resolves with the reply or rejects with an error; the
    store may change either way. *)
Class RedisClient (S : Type) : Type := {
  client_incr : string -> S -> completion Z * S;
  client_expire : string -> Z -> S -> completion bool * S
}.

Record world (S : Type) : Type :=
  World { store : S; commands : list command; logs : list log_entry }.
Arguments World {S} store commands logs.
Arguments store {S} w.
Arguments commands {S} w.
Arguments logs {S} w.

Definition M (S A : Type) : Type := world S -> completion A * world S.

Definition ret {S A} (a : A) : M S A := fun w => (Normal a, w).

Definition bind {S A B} (m : M S A) (k : A -> M S B) : M S B :=
  fun w =>
    match m w with
    | (Normal a, w') => k a w'
    | (Throw e, w') => (Throw e, w')
    end.

Definition throw {S A} (e : js_error) : M S A := fun w => (Throw e, w).

(** [try { body } catch (error) { handler }] *)
Definition try_catch {S A} (body : M S A) (handler : js_error -> M S A) : M S A :=
  fun w =>
    match body w with
    | (Normal a, w') => (Normal a, w')
    | (Throw e, w') => handler e w'
    end.

Declare Scope js_scope.
Delimit Scope js_scope with js.
Notation "x <- m ;; k" := (bind m (fun x => k))
  (at level 100, m at next level, right associativity) : js_scope.
Notation "m ;; k" := (bind m (fun _ => k))
  (at level 100, right associativity) : js_scope.
Open Scope js_scope.

(** [logger.debug], [logger.warn], [logger.error]: the event is recorded;
    the logger does not throw. *)
Definition logger {S} (l : level) (message : string) (meta : jsobj) : M S unit :=
  fun w => (Normal tt, World (store w) (commands w) (logs w ++ [Log l message meta])).

(** [await redisClient.incr(key)] *)
Definition redis_incr {S} `{RedisClient S} (key : string) : M S Z :=
  fun w =>
    let '(reply, s) := client_incr key (store w) in
    (reply, World s (commands w ++ [Incr key]) (logs w)).

(** [await redisClient.expire(key, seconds)] *)
Definition redis_expire {S} `{RedisClient S} (key : string) (seconds : Z) : M S bool :=
  fun w =>
    let '(reply, s) := client_expire key seconds (store w) in
    (reply, World s (commands w ++ [Expire key seconds]) (logs w)).

(** ** The limit decision *)

(** [apiKey.substring(0, 15) + '...'] *)
Definition masked (apiKey : string) : jsval := JStr (substring0 15 apiKey +:+ "...").

(** [`rate_limit:${apiKey}:${currentWindow}`] *)
Definition redisKey_of (apiKey : string) (currentWindow : Z) : string :=
  "rate_limit:" +:+ apiKey +:+ ":" +:+ js_toString (JNum currentWindow).

Definition checkRateLimit {S} `{RedisClient S}
    (env : option string) (now : Z) (apiKey : string) : M S jsobj :=
  let currentWindow := getCurrentWindow env now in
  let userLimit := getRateLimitForAPIKey apiKey in
  let tier := getTierFromAPIKey apiKey in
  let redisKey := redisKey_of apiKey currentWindow in
  logger LDebug "[RateLimit] Checking limit"
    [("apiKey", masked apiKey); ("tier", tier); ("limit", userLimit);
     ("window", JNum currentWindow)] ;;
  try_catch
    (count <- redis_incr redisKey ;;
     (if count =? 1 then
        (_ <- redis_expire redisKey (WINDOW_SIZE env * 2) ;;
         logger LDebug "[RateLimit] Set key expiry"
           [("redisKey", JStr redisKey); ("ttl", JNum (WINDOW_SIZE env * 2))])
      else ret tt) ;;
     if js_gt (JNum count) userLimit then
       (logger LWarn "[RateLimit] Request rejected - limit exceeded"
          [("apiKey", masked apiKey); ("tier", tier); ("count", JNum count);
           ("limit", userLimit)] ;;
        ret [("allowed", JBool false); ("count", JNum count);
             ("limit", userLimit); ("tier", tier)])
     else
       let remaining := js_sub userLimit (JNum count) in
       (logger LDebug "[RateLimit] Request allowed"
          [("apiKey", masked apiKey); ("tier", tier); ("count", JNum count);
           ("limit", userLimit); ("remaining", remaining)] ;;
        ret [("allowed", JBool true); ("count", JNum count);
             ("limit", userLimit); ("tier", tier); ("remaining", remaining)]))
    (fun error =>
       logger LError "[RateLimit] Redis operation failed - failing open"
         [("message", JStr (err_message error)); ("stack", JStr (err_stack error));
          ("apiKey", masked apiKey); ("operation", JStr "incr");
          ("redisKey", JStr redisKey)] ;;
       ret [("allowed", JBool true); ("count", JNum 0); ("limit", userLimit);
            ("tier", tier); ("remaining", userLimit)]).

(** ** The HTTP boundary *)

Record response : Type :=
  Response { status : Z; headers : jsobj; body : jsval }.

(** A text between double quotes. *)
Definition quoted (text : string) : string :=
  String "034"%char text +:+ String "034"%char EmptyString.

(** [res.setHeader(name, value)].  The HTTP library refuses the value
    [undefined] with a [TypeError] (ERR_HTTP_INVALID_HEADER_VALUE); any
    value this handler can pass otherwise is accepted and recorded. *)
Definition setHeader {S} (name : string) (value : jsval) (hs : jsobj) : M S jsobj :=
  match value with
  | JUndefined =>
      throw (JsError ("Invalid value " +:+ quoted "undefined" +:+ " for header "
                      +:+ quoted name)
                     "TypeError [ERR_HTTP_INVALID_HEADER_VALUE]")
  | _ => ret (hs ++ [(name, value)])
  end.

(** The handler of [GET /api/resource]; [header] is
    [req.headers['x-api-key']], [None] when the header is absent.  The
    request's address and path, which only decorate the 401 log event, are
    left out. *)
Definition api_resource {S} `{RedisClient S}
    (env : option string) (now : Z) (header : option string) : M S response :=
  match header with
  | Some apiKey =>
      if truthy (JStr apiKey) then
        result <- checkRateLimit env now apiKey ;;
        hs <- setHeader "X-RateLimit-Limit" (get result "limit") [] ;;
        hs <- setHeader "X-RateLimit-Remaining"
                (js_or (get result "remaining") (JNum 0)) hs ;;
        hs <- setHeader "X-RateLimit-Window" (JNum (WINDOW_SIZE env)) hs ;;
        hs <- setHeader "X-RateLimit-Tier" (get result "tier") hs ;;
        if negb (truthy (get result "allowed")) then
          ret (Response 429 hs
                 (JObj [("error", JStr "Too many requests");
                        ("message",
                         JStr ("Rate limit exceeded. Your tier ("
                               +:+ js_toString (get result "tier")
                               +:+ ") allows "
                               +:+ js_toString (get result "limit")
                               +:+ " requests per "
                               +:+ js_toString (JNum (WINDOW_SIZE env))
                               +:+ " seconds."));
                        ("retryAfter", JNum (WINDOW_SIZE env));
                        ("tier", get result "tier")]))
        else
          ret (Response 200 hs
                 (JObj [("message", JStr "Success!");
                        ("data", JStr "Here is your data");
                        ("rateLimit",
                         JObj [("tier", get result "tier");
                               ("limit", get result "limit");
                               ("remaining", get result "remaining");
                               ("windowSize", JNum (WINDOW_SIZE env))])]))
      else
        logger LWarn "[HTTP] Unauthorized request - missing API key" [] ;;
        ret (Response 401 []
               (JObj [("error", JStr "Unauthorized");
                      ("message", JStr "API key required. Include X-API-Key header.")]))
  | None =>
      logger LWarn "[HTTP] Unauthorized request - missing API key" [] ;;
      ret (Response 401 []
             (JObj [("error", JStr "Unauthorized");
                    ("message", JStr "API key required. Include X-API-Key header.")]))
  end.

(** ** The shared counting store

    A model of the external key-value service behind [redisClient], with
    the semantics of the two commands used: INCR creates a missing key at
    1 with no time to live and otherwise adds one, keeping the time to
    live; EXPIRE on a live key sets its time to live in seconds, a
    non-positive one deleting the key.  A key whose deadline has passed is
    no longer there.  The store keeps its own clock (milliseconds) and can
    be unreachable for either command, in which case the command has no
    effect and the client rejects. *)

Record redis_entry : Type := Entry { value : Z; deadline : option Z }.

Record redis : Type :=
  Redis { clock : Z;
          kv : gmap string redis_entry;
          incr_down : bool;
          expire_down : bool }.

Definition live (t : Z) (e : redis_entry) : bool :=
  match deadline e with
  | Some d => t <? d
  | None => true
  end.

Definition lookup_live (r : redis) (key : string) : option redis_entry :=
  match kv r !! key with
  | Some e => if live (clock r) e then Some e else None
  | None => None
  end.

Definition connection_error : js_error :=
  JsError "connect ECONNREFUSED" "Error: connect ECONNREFUSED".

Definition redis_INCR (key : string) (r : redis) : completion Z * redis :=
  if incr_down r then (Throw connection_error, r)
  else
    let e :=
      match lookup_live r key with
      | Some e => Entry (value e + 1) (deadline e)
      | None => Entry 1 None
      end in
    (Normal (value e),
     Redis (clock r) (<[key := e]> (kv r)) (incr_down r) (expire_down r)).

Definition redis_EXPIRE (key : string) (seconds : Z) (r : redis)
  : completion bool * redis :=
  if expire_down r then (Throw connection_error, r)
  else
    match lookup_live r key with
    | None => (Normal false, r)
    | Some e =>
        if seconds <=? 0 then
          (Normal true,
           Redis (clock r) (delete key (kv r)) (incr_down r) (expire_down r))
        else
          (Normal true,
           Redis (clock r)
                 (<[key := Entry (value e) (Some (clock r + seconds * 1000))]> (kv r))
                 (incr_down r) (expire_down r))
    end.

#[export] Instance redis_client : RedisClient redis :=
  {| client_incr := redis_INCR; client_expire := redis_EXPIRE |}.

(** *** Sequential requests

    One request after the other, each served to completion before the
    next arrives.  A request arrives at a time read by both clocks and
    finds the store reachable or not for each command. *)

Record request : Type :=
  Request { at_ms : Z; credential : string; incr_fails : bool; expire_fails : bool }.

Definition arrive (r : request) (w : world redis) : world redis :=
  World (Redis (at_ms r) (kv (store w)) (incr_fails r) (expire_fails r))
        (commands w) (logs w).

Fixpoint serve (env : option string) (rs : list request) (w : world redis)
  : list (completion jsobj) * world redis :=
  match rs with
  | [] => ([], w)
  | r :: rest =>
      let '(d, w1) := checkRateLimit env (at_ms r) (credential r) (arrive r w) in
      let '(ds, w2) := serve env rest w1 in
      (d :: ds, w2)
  end.

Definition healthy (t : Z) (apiKey : string) : request := Request t apiKey false false.

Definition fresh : world redis := World (Redis 0 empty false false) [] [].

(** ** Reading a run *)

(** The two objects [checkRateLimit] returns from its [try] block and the
    one it returns from its [catch] block. *)
Definition verdict (userLimit tier : jsval) (count : Z) : jsobj :=
  if js_gt (JNum count) userLimit then
    [("allowed", JBool false); ("count", JNum count); ("limit", userLimit);
     ("tier", tier)]
  else
    [("allowed", JBool true); ("count", JNum count); ("limit", userLimit);
     ("tier", tier); ("remaining", js_sub userLimit (JNum count))].

Definition fail_open (userLimit tier : jsval) : jsobj :=
  [("allowed", JBool true); ("count", JNum 0); ("limit", userLimit);
   ("tier", tier); ("remaining", userLimit)].

(** A decision is flagged when it has a field besides the five that a
    decision taken with the store reachable has. *)
Definition decision_fields : list string :=
  ["allowed"; "count"; "limit"; "tier"; "remaining"].

Definition flagged (d : jsobj) : Prop :=
  exists k, In k (map fst d) /\ ~ In k decision_fields.

(** Field of a JSON body. *)
Definition field (v : jsval) (k : string) : jsval :=
  match v with
  | JObj o => get o k
  | _ => JUndefined
  end.

Definition allowed_of (d : completion jsobj) : jsval :=
  match d with Normal o => get o "allowed" | Throw _ => JUndefined end.

Definition count_of (d : completion jsobj) : jsval :=
  match d with Normal o => get o "count" | Throw _ => JUndefined end.

Definition remaining_of (d : completion jsobj) : jsval :=
  match d with Normal o => get o "remaining" | Throw _ => JUndefined end.

(** A timestamp in milliseconds lies in bucket [k] when its second does. *)
Definition in_bucket (env : option string) (k ms : Z) : Prop :=
  k * WINDOW_SIZE env <= ms / 1000 < (k + 1) * WINDOW_SIZE env.

(** The counter under [key0] is at least [v] and has no deadline. *)
Definition pinned (key0 : string) (v : Z) (r : redis) : Prop :=
  exists v', v <= v' /\ kv r !! key0 = Some (Entry v' None).

(** The credential and the worlds of the concrete runs below. *)
Definition free_key : string := "sk_test_free_1".

(** The world after five requests of one free-tier credential in the
    first window, when the sixth arrives. *)
Definition sixth_arrives : world redis :=
  arrive (healthy 6000 free_key)
         (snd (serve None
                 (map (fun t => healthy t free_key) [1000; 2000; 3000; 4000; 5000])
                 fresh)).

(** The store is unreachable for the increment. *)
Definition store_down : world redis := arrive (Request 1000 free_key true false) fresh.

(** The store accepts the increment and rejects the expiry. *)
Definition expire_down_world : world redis :=
  arrive (Request 1000 free_key false true) fresh.

(** ** The in-process limiter

    The earlier version of the service keeps its counters in the object
    [requestCounts] of the process.  [requestCounts[userId]] is a lookup
    on an object literal, so it sees the properties of [Object.prototype]
    as well; what the function then reads and writes depends on what the
    lookup found.  The memory holds the own entries of the table and the
    [count] and [window] properties that calls have put on the built-in
    objects. *)

Module InMemory.

Definition RATE_LIMIT : Z := 10.

Definition WINDOW_SIZE : Z := 60.

(** [Math.floor(Date.now() / (WINDOW_SIZE * 1000))] *)
Definition getCurrentWindow (now : Z) : Z := now / (WINDOW_SIZE * 1000).

(** The own [count] and [window] properties of an object; [JUndefined]
    and [None] when the object has no such property. *)
Record slot : Type := Slot { count : jsval; window : option Z }.

Record memory : Type :=
  Memory { requestCounts : gmap string slot;
           builtins : gmap string slot;
           prototype : slot }.

Definition no_slot : slot := Slot JUndefined None.

Definition initial : memory := Memory empty empty no_slot.

(** What [requestCounts[userId]] evaluates to: an own entry, a function
    member of [Object.prototype], [Object.prototype] itself (through
    [__proto__]), a number that a call has put on [Object.prototype], or
    [undefined]. *)
Inductive referent : Type :=
| RRecord (key : string)
| RBuiltin (name : string)
| RPrototype
| RNumber (v : jsval)
| RUndefined.

Definition lookup (m : memory) (userId : string) : referent :=
  match requestCounts m !! userId with
  | Some _ => RRecord userId
  | None =>
      match own Object_prototype userId with
      | Some JObjectPrototype => RPrototype
      | Some _ => RBuiltin userId
      | None =>
          if String.eqb userId "count" then
            match count (prototype m) with
            | JUndefined => RUndefined
            | v => RNumber v
            end
          else if String.eqb userId "window" then
            match window (prototype m) with
            | Some w => RNumber (JNum w)
            | None => RUndefined
            end
          else RUndefined
      end
  end.

Definition truthy_referent (r : referent) : bool :=
  match r with
  | RRecord _ | RBuiltin _ | RPrototype => true
  | RNumber v => truthy v
  | RUndefined => false
  end.

(** The own slot of the object a referent denotes; a number has none. *)
Definition own_slot (m : memory) (r : referent) : slot :=
  match r with
  | RRecord k => default no_slot (requestCounts m !! k)
  | RBuiltin n => default no_slot (builtins m !! n)
  | RPrototype => prototype m
  | RNumber _ | RUndefined => no_slot
  end.

(** [userData.count] and [userData.window]: the own property, else the
    one inherited from [Object.prototype]. *)
Definition read_count (m : memory) (r : referent) : jsval :=
  match count (own_slot m r) with
  | JUndefined => count (prototype m)
  | v => v
  end.

Definition read_window (m : memory) (r : referent) : option Z :=
  match window (own_slot m r) with
  | Some w => Some w
  | None => window (prototype m)
  end.

(** An assignment to a property of [userData]: it lands on the object
    itself; on a number it is dropped (the script is not in strict mode). *)
Definition write (m : memory) (r : referent) (f : slot -> slot) : memory :=
  match r with
  | RRecord k =>
      Memory (<[k := f (own_slot m r)]> (requestCounts m)) (builtins m) (prototype m)
  | RBuiltin n =>
      Memory (requestCounts m) (<[n := f (own_slot m r)]> (builtins m)) (prototype m)
  | RPrototype => Memory (requestCounts m) (builtins m) (f (prototype m))
  | RNumber _ | RUndefined => m
  end.

Definition set_count (v : jsval) (s : slot) : slot := Slot v (window s).

Definition set_window (w : Z) (s : slot) : slot := Slot (count s) (Some w).

(** The value [x++] stores. *)
Definition incremented (v : jsval) : jsval :=
  match js_toNumber v with
  | Some n => JNum (n + 1)
  | None => JNaN
  end.

(** [a != b] for a window property and a number. *)
Definition differs (a : option Z) (b : Z) : bool :=
  match a with
  | Some w => negb (w =? b)
  | None => true
  end.

Definition type_error : js_error :=
  JsError "Cannot read properties of undefined (reading 'window')" "TypeError".

Definition checkRateLimit (now : Z) (userId : string) (m : memory)
  : completion bool * memory :=
  let currentWindow := getCurrentWindow now in
  let m :=
    if negb (truthy_referent (lookup m userId)) then
      Memory (<[userId := Slot (JNum 0) (Some currentWindow)]> (requestCounts m))
             (builtins m) (prototype m)
    else m in
  let userData := lookup m userId in
  match userData with
  | RUndefined => (Throw type_error, m)
  | _ =>
      let m :=
        if differs (read_window m userData) currentWindow then
          write (write m userData (set_count (JNum 0))) userData (set_window currentWindow)
        else m in
      let m := write m userData (set_count (incremented (read_count m userData))) in
      if js_gt (read_count m userData) (JNum RATE_LIMIT) then (Normal false, m)
      else (Normal true, m)
  end.

(** The three stages of [checkRateLimit]: the entry is created when
    the lookup is falsy, the counter restarts in a new window, the count
    goes up. *)
Definition ensure (currentWindow : Z) (userId : string) (m : memory) : memory :=
  if negb (truthy_referent (lookup m userId)) then
    Memory (<[userId := Slot (JNum 0) (Some currentWindow)]> (requestCounts m))
           (builtins m) (prototype m)
  else m.

Definition restart (currentWindow : Z) (userData : referent) (m : memory) : memory :=
  if differs (read_window m userData) currentWindow then
    write (write m userData (set_count (JNum 0))) userData (set_window currentWindow)
  else m.

Definition bump (userData : referent) (m : memory) : memory :=
  write m userData (set_count (incremented (read_count m userData))).

(** The table of [m'] differs from that of [m] at most at [u], and has
    every entry that [m] has. *)
Definition table_step (u : string) (m m' : memory) : Prop :=
  (forall k, k <> u -> requestCounts m' !! k = requestCounts m !! k) /\
  (forall k, is_Some (requestCounts m !! k) -> is_Some (requestCounts m' !! k)).

(** [req.query.user]: absent, a string, or an array or object built by
    the query parser, which is truthy and serves as a property key
    through its string conversion. *)
Inductive query_value : Type :=
| QAbsent
| QString (s : string)
| QStructured (as_key : string).

(** [req.query.user || 'anonymous'], as the property key it becomes. *)
Definition userID_of (q : query_value) : string :=
  match q with
  | QAbsent => "anonymous"
  | QString s => if truthy (JStr s) then s else "anonymous"
  | QStructured k => k
  end.

(** The handler of [GET /api/resource]. *)
Definition api_resource (now : Z) (q : query_value) (m : memory)
  : completion response * memory :=
  let userID := userID_of q in
  match checkRateLimit now userID m with
  | (Normal allowed, m') =>
      if negb allowed then
        (Normal (Response 429 []
                   (JObj [("error", JStr "Too many requests");
                          ("message",
                           JStr ("Rate limit: " +:+ js_toString (JNum RATE_LIMIT)
                                 +:+ " requests per " +:+ js_toString (JNum WINDOW_SIZE)
                                 +:+ " seconds"))])), m')
      else
        (Normal (Response 200 []
                   (JObj [("message", JStr "Success!");
                          ("data", JStr "Here is your data")])), m')
  | (Throw e, m') => (Throw e, m')
  end.

(** Requests served one after the other. *)
Fixpoint serve (rs : list (Z * string)) (m : memory) : list (completion bool) * memory :=
  match rs with
  | [] => ([], m)
  | (now, userId) :: rest =>
      let '(d, m1) := checkRateLimit now userId m in
      let '(ds, m2) := serve rest m1 in
      (d :: ds, m2)
  end.

(** Requests handled one after the other. *)
Fixpoint handle (rs : list (Z * query_value)) (m : memory)
  : list (completion response) * memory :=
  match rs with
  | [] => ([], m)
  | (now, q) :: rest =>
      let '(r, m1) := api_resource now q m in
      let '(rest_r, m2) := handle rest m1 in
      (r :: rest_r, m2)
  end.

Definition status_of (r : completion response) : option Z :=
  match r with
  | Normal resp => Some (status resp)
  | Throw _ => None
  end.

(** A user id that the lookup can only find as an own entry. *)
Definition plain (userId : string) : Prop :=
  own Object_prototype userId = None /\ userId <> "count" /\ userId <> "window".

(** Every own entry holds a number and a window. *)
Definition well_formed (m : memory) : Prop :=
  forall k s, requestCounts m !! k = Some s ->
              exists c w, s = Slot (JNum c) (Some w).

(** No own entry of the table is named like a member of
    [Object.prototype]. *)
Definition clean (m : memory) : Prop :=
  forall k, is_Some (requestCounts m !! k) -> own Object_prototype k = None.

(** The user id under which each request is counted. *)
Definition counted_as (rs : list (Z * query_value)) : list (Z * string) :=
  map (fun r => (fst r, userID_of (snd r))) rs.

(** The status the handler gives to an outcome of [checkRateLimit]. *)
Definition status_for (d : completion bool) : option Z :=
  match d with
  | Normal true => Some 200
  | Normal false => Some 429
  | Throw _ => None
  end.

(** How many of the requests are by [userId]. *)
Fixpoint requests_of (userId : string) (rs : list (Z * string)) : Z :=
  match rs with
  | [] => 0
  | (_, u) :: rest => (if String.eqb u userId then 1 else 0) + requests_of userId rest
  end.

(** Twelve requests without a user id, with an empty one and with the
    id "anonymous", mixed with requests of "bob" and of built-in names. *)
Definition unidentified_traffic : list (Z * query_value) :=
  [(1000, QAbsent); (1100, QString "bob"); (1200, QString EmptyString);
   (1300, QString "anonymous"); (1400, QStructured "constructor");
   (1500, QAbsent); (1600, QAbsent); (1700, QString "__proto__");
   (1800, QAbsent); (1900, QAbsent); (2000, QAbsent); (2100, QAbsent);
   (2200, QAbsent); (2300, QString EmptyString); (2400, QAbsent)].

End InMemory.

(** ** The store client's start-up

    [redis-client.js] connects once when the module is loaded; when that
    first connection fails it logs a fatal event and ends the process
    with [process.exit(1)]. *)

Inductive process_state : Type :=
| Running
| Exited (code : Z).

(** [process.env.NAME], [None] when unset. *)
Definition env_value (v : option string) : jsval :=
  match v with
  | Some s => JStr s
  | None => JUndefined
  end.

(** The initial connection, by the outcome of [await
    redisClient.connect()]; [host] and [port] are the environment
    variables REDIS_HOST and REDIS_PORT. *)
Definition initial_connection (host port : option string) (connected : completion unit)
  : process_state * log_entry :=
  match connected with
  | Normal _ => (Running, Log LInfo "[Redis] Initial connection successful" [])
  | Throw err =>
      (Exited 1,
       Log LError "[Redis] FATAL: Faild to establish initial connection"
           [("message", JStr (err_message err)); ("stack", JStr (err_stack err));
            ("host", js_or (env_value host) (JStr "localhost"));
            ("port", js_or (env_value port) (JNum 6379))])
  end.

(** ** The store client's reconnection policy *)

Inductive reconnect : Type :=
| GiveUp (e : js_error)
| RetryAfter (delay : Z).

(** [reconnectStrategy: (retries) => ...] with the event it logs. *)
Definition reconnectStrategy (retries : Z) : reconnect * log_entry :=
  if 10 <? retries then
    (GiveUp (JsError "Max reconnection attempts reached" "Error"),
     Log LError "[Redis] Max connection attempts reached" [("retries", JNum retries)])
  else
    let delay := Z.min (retries * 100) 3000 in
    (RetryAfter delay,
     Log LWarn "[Redis] Reconnecting" [("attempt", JNum retries); ("delayMs", JNum delay)]).

(** ** The introspection endpoints *)

(** The commands [/debug] and [/health] send through [redisClient]. *)
Class RedisAdmin (S : Type) : Type := {
  client_keys : string -> S -> completion (list string) * S;
  client_get : string -> S -> completion (option string) * S;
  client_ping : S -> completion string * S
}.

Fixpoint overwrite (o : jsobj) (k : string) (v : jsval) : jsobj :=
  match o with
  | [] => [(k, v)]
  | (k', v') :: rest =>
      if String.eqb k' k then (k', v) :: rest else (k', v') :: overwrite rest k v
  end.

(** [o[k] = n] for a number [n] on an object literal: the property is
    created or overwritten, except under the key [__proto__], whose
    setter ignores a value that is not an object. *)
Definition assign_number (o : jsobj) (k : string) (n : jsval) : jsobj :=
  if String.eqb k "__proto__" then o else overwrite o k n.

(** The number [parseInt] returns, as a value. *)
Definition number_of (r : option Z) : jsval :=
  match r with
  | Some n => JNum n
  | None => JNaN
  end.

(** The loop of [/debug]: [counts[key] = parseInt(await
    redisClient.get(key))] for each key; a missing key is read as [null]. *)
Fixpoint read_counts {S} `{RedisAdmin S} (keys : list string) (counts : jsobj) (s : S)
  : completion jsobj * S :=
  match keys with
  | [] => (Normal counts, s)
  | key :: rest =>
      match client_get key s with
      | (Normal count, s1) =>
          read_counts rest
            (assign_number counts key
               (number_of (parseInt (Some (default "null" count)))))
            s1
      | (Throw e, s1) => (Throw e, s1)
      end
  end.

Definition debug_failed (e : js_error) : response * log_entry :=
  (Response 500 []
     (JObj [("error", JStr "Internal server error");
            ("message", JStr "Debug endpoint unavailable")]),
   Log LError "[Debug] Debug endpoint failed"
       [("message", JStr (err_message e)); ("stack", JStr (err_stack e))]).

(** The handler of [GET /debug]; [currentTime] is
    [new Date().toISOString()].  It returns the response, the store and
    the event handed to the logger. *)
Definition debug {S} `{RedisAdmin S}
    (env : option string) (now : Z) (currentTime : string) (s : S)
  : response * S * log_entry :=
  let currentWindow := getCurrentWindow env now in
  match client_keys "rate_limit:*" s with
  | (Normal keys, s1) =>
      match read_counts keys [] s1 with
      | (Normal counts, s2) =>
          (Response 200 []
             (JObj [("currentWindow", JNum currentWindow);
                    ("currentTime", JStr currentTime);
                    ("redisKeys", JObj counts);
                    ("totalKeys", JNum (Z.of_nat (length keys)));
                    ("config",
                     JObj [("windowSize", JNum (WINDOW_SIZE env));
                           ("tierLimits", JObj TIER_LIMITS)])]),
           s2,
           Log LDebug "[Debug] Debug endpoint accessed"
               [("keysCount", JNum (Z.of_nat (length keys)));
                ("currentWindow", JNum currentWindow)])
      | (Throw e, s2) => (fst (debug_failed e), s2, snd (debug_failed e))
      end
  | (Throw e, s1) => (fst (debug_failed e), s1, snd (debug_failed e))
  end.

(** The handler of [GET /health]. *)
Definition health {S} `{RedisAdmin S} (timestamp : string) (s : S)
  : response * S * option log_entry :=
  match client_ping s with
  | (Normal _, s1) =>
      (Response 200 []
         (JObj [("status", JStr "healthy"); ("redis", JStr "connected");
                ("timestamp", JStr timestamp)]),
       s1, None)
  | (Throw e, s1) =>
      (Response 503 []
         (JObj [("status", JStr "unhealthy"); ("redis", JStr "disconnected");
                ("timestamp", JStr timestamp)]),
       s1,
       Some (Log LError "[Health] Health check failed"
                 [("message", JStr (err_message e))]))
  end.

(** *** The same commands on the store model

    KEYS lists the keys that are there and match the pattern, of which
    the star and literal characters are modelled (the one pattern the
    program uses has no other special character); GET replies the
    decimal rendering of a counter, or nothing for a key that is not
    there; PING replies.  The model has no fault for these commands. *)

Fixpoint glob (pattern : string) : string -> bool :=
  match pattern with
  | EmptyString =>
      fun s => match s with EmptyString => true | String _ _ => false end
  | String c rest =>
      if Ascii.eqb c "*" then
        fix star (s : string) : bool :=
          glob rest s ||
          match s with
          | EmptyString => false
          | String _ s' => star s'
          end
      else
        fun s =>
          match s with
          | EmptyString => false
          | String d s' => Ascii.eqb c d && glob rest s'
          end
  end.

Definition live_keys (r : redis) : list string :=
  map fst (filter (fun kv => live (clock r) (snd kv) = true) (map_to_list (kv r))).

Definition redis_KEYS (pattern : string) (r : redis) : completion (list string) * redis :=
  (Normal (filter (fun k => glob pattern k = true) (live_keys r)), r).

Definition redis_GET (key : string) (r : redis) : completion (option string) * redis :=
  (Normal (option_map (fun e => pretty (value e)) (lookup_live r key)), r).

Definition redis_PING (r : redis) : completion string * redis := (Normal "PONG", r).

#[export] Instance redis_admin : RedisAdmin redis :=
  {| client_keys := redis_KEYS; client_get := redis_GET; client_ping := redis_PING |}.

(** The [redisKeys] object of a [/debug] response. *)
Definition reported (resp : response) : jsobj :=
  match field (body resp) "redisKeys" with
  | JObj o => o
  | _ => []
  end.

(** ** Vocabulary of the further properties *)

(** A request is for the counter of [apiKey] in window [win]. *)
Definition targets (env : option string) (apiKey : string) (win : Z) (r : request) : bool :=
  String.eqb (credential r) apiKey && (getCurrentWindow env (at_ms r) =? win).

(** How many of the requests are for that counter. *)
Fixpoint hits (env : option string) (apiKey : string) (win : Z) (rs : list request) : Z :=
  match rs with
  | [] => 0
  | r :: rest =>
      (if targets env apiKey win r then 1 else 0) + hits env apiKey win rest
  end.

Definition is_digit (a : ascii) : bool :=
  let n := Z.of_nat (nat_of_ascii a) in (48 <=? n) && (n <=? 57).

Fixpoint all_digits (s : string) : bool :=
  match s with
  | EmptyString => true
  | String a rest => is_digit a && all_digits rest
  end.

Fixpoint has_colon (s : string) : bool :=
  match s with
  | EmptyString => false
  | String a rest => Ascii.eqb a ":" || has_colon rest
  end.

(** Requests of several credentials, one of them unreachable for the
    store, interleaved in the first window. *)
Definition mixed_traffic : list request :=
  [healthy 1000 free_key; healthy 1500 "sk_test_premium_1";
   Request 2000 "nobody" true false; healthy 2500 free_key;
   healthy 3000 "sk_test_premium_1"; healthy 3500 free_key].

(** Five requests in the last millisecond of the first window and five in
    the first millisecond of the next one. *)
Definition burst_before : list Z := [59999; 59999; 59999; 59999; 59999].
Definition burst_after : list Z := [60000; 60000; 60000; 60000; 60000].

(** * Properties *)

Ltac run_limiter :=
  unfold checkRateLimit, bind, try_catch, redis_incr, redis_expire, logger, ret, throw;
  cbn [store commands logs].

Lemma tier_defined (apiKey : string) : getTierFromAPIKey apiKey <> JUndefined.
Proof.
  unfold getTierFromAPIKey, js_or.
  destruct (truthy (get API_KEYS apiKey)) eqn:E; [| discriminate].
  intros Hu. rewrite Hu in E. discriminate.
Qed.

Section AnyStore.

Context {S : Type} `{RedisClient S}.
Variable env : option string.

(** What one call does, by the replies of the store. *)
Lemma checkRateLimit_cases (now : Z) (apiKey : string) (w : world S) :
  let key := redisKey_of apiKey (getCurrentWindow env now) in
  let L := getRateLimitForAPIKey apiKey in
  let T := getTierFromAPIKey apiKey in
  let ttl := WINDOW_SIZE env * 2 in
  exists lg,
    match client_incr key (store w) with
    | (Throw e, s1) =>
        checkRateLimit env now apiKey w =
        (Normal (fail_open L T), World s1 (commands w ++ [Incr key]) lg)
    | (Normal c, s1) =>
        if c =? 1 then
          match client_expire key ttl s1 with
          | (Throw e, s2) =>
              checkRateLimit env now apiKey w =
              (Normal (fail_open L T),
               World s2 ((commands w ++ [Incr key]) ++ [Expire key ttl]) lg)
          | (Normal _, s2) =>
              checkRateLimit env now apiKey w =
              (Normal (verdict L T c),
               World s2 ((commands w ++ [Incr key]) ++ [Expire key ttl]) lg)
          end
        else
          checkRateLimit env now apiKey w =
          (Normal (verdict L T c), World s1 (commands w ++ [Incr key]) lg)
    end.
Proof.
  intros key L T ttl. run_limiter. fold key L T ttl.
  destruct (client_incr key (store w)) as [[c | e] s1];
    cbn [store commands logs]; [| eexists; reflexivity].
  destruct (c =? 1); cbn [store commands logs].
  - destruct (client_expire key ttl s1) as [[b | e] s2];
      cbn [store commands logs]; [| eexists; reflexivity].
    unfold verdict. destruct (js_gt (JNum c) L); eexists; reflexivity.
  - unfold verdict. destruct (js_gt (JNum c) L); eexists; reflexivity.
Qed.

(** The decision is one of the three objects of the source. *)
Lemma decision_shape (now : Z) (apiKey : string) (w w' : world S) (d : jsobj) :
  checkRateLimit env now apiKey w = (Normal d, w') ->
  d = fail_open (getRateLimitForAPIKey apiKey) (getTierFromAPIKey apiKey) \/
  exists c, d = verdict (getRateLimitForAPIKey apiKey) (getTierFromAPIKey apiKey) c.
Proof.
  intros Hrun.
  destruct (checkRateLimit_cases now apiKey w) as [lg Hc]. cbv zeta in Hc.
  destruct (client_incr _ (store w)) as [[c | e] s1].
  - destruct (c =? 1).
    + destruct (client_expire _ _ s1) as [[b | e] s2];
        rewrite Hc in Hrun; inversion Hrun; eauto.
    + rewrite Hc in Hrun; inversion Hrun; eauto.
  - rewrite Hc in Hrun; inversion Hrun; eauto.
Qed.

Lemma verdict_fields (L T : jsval) (c : Z) :
  get (verdict L T c) "limit" = L /\ get (verdict L T c) "tier" = T /\
  get (verdict L T c) "count" = JNum c /\
  get (verdict L T c) "allowed" = JBool (negb (js_gt (JNum c) L)).
Proof. unfold verdict. destruct (js_gt (JNum c) L); repeat split; reflexivity. Qed.

Lemma decision_fields_of (now : Z) (apiKey : string) (w w' : world S) (d : jsobj) :
  checkRateLimit env now apiKey w = (Normal d, w') ->
  get d "limit" = getRateLimitForAPIKey apiKey /\
  get d "tier" = getTierFromAPIKey apiKey /\
  exists b, get d "allowed" = JBool b.
Proof.
  intros Hrun. destruct (decision_shape _ _ _ _ _ Hrun) as [-> | [c ->]].
  - repeat split; eauto.
  - destruct (verdict_fields (getRateLimitForAPIKey apiKey)
                (getTierFromAPIKey apiKey) c) as (Hl & Ht & _ & Ha).
    repeat split; eauto.
Qed.

Lemma setHeader_defined (name : string) (v : jsval) (hs : jsobj) (w : world S) :
  v <> JUndefined -> setHeader name v hs w = (Normal (hs ++ [(name, v)]), w).
Proof. intros Hv. destruct v; try reflexivity. congruence. Qed.

(** How the handler renders a decision whose limit is defined. *)
Lemma api_resource_renders (now : Z) (apiKey : string) (w w' : world S) (d : jsobj) :
  truthy (JStr apiKey) = true ->
  get d "limit" <> JUndefined ->
  get d "tier" <> JUndefined ->
  checkRateLimit env now apiKey w = (Normal d, w') ->
  exists resp,
    api_resource env now (Some apiKey) w = (Normal resp, w') /\
    headers resp =
      [("X-RateLimit-Limit", get d "limit");
       ("X-RateLimit-Remaining", js_or (get d "remaining") (JNum 0));
       ("X-RateLimit-Window", JNum (WINDOW_SIZE env));
       ("X-RateLimit-Tier", get d "tier")] /\
    status resp = (if truthy (get d "allowed") then 200 else 429) /\
    (truthy (get d "allowed") = false ->
       field (body resp) "retryAfter" = JNum (WINDOW_SIZE env) /\
       field (body resp) "tier" = get d "tier") /\
    (truthy (get d "allowed") = true ->
       field (body resp) "rateLimit" =
         JObj [("tier", get d "tier"); ("limit", get d "limit");
               ("remaining", get d "remaining");
               ("windowSize", JNum (WINDOW_SIZE env))]).
Proof.
  intros Hkey Hl Ht Hrun.
  assert (Hr : js_or (get d "remaining") (JNum 0) <> JUndefined).
  { unfold js_or. destruct (truthy (get d "remaining")) eqn:E; [| discriminate].
    intros Hu. rewrite Hu in E. discriminate. }
  unfold api_resource. rewrite Hkey. unfold bind. rewrite Hrun.
  rewrite (setHeader_defined _ _ _ _ Hl).
  rewrite (setHeader_defined _ _ _ _ Hr).
  rewrite (setHeader_defined _ (JNum (WINDOW_SIZE env))) by discriminate.
  rewrite (setHeader_defined _ _ _ _ Ht).
  destruct (truthy (get d "allowed")); cbn [negb]; unfold ret;
    eexists; (split; [reflexivity |]); cbn [headers status body app];
    repeat split; try reflexivity; intros; discriminate.
Qed.

(** *** Claims that hold whatever the store does *)

(** C2 (amended): for a credential with quota [Q], when the increment
    replies [c] and the expiry command, if sent, succeeds, an allowed
    decision ([c <= Q]) carries [remaining = Q - c], which is not
    negative; a denied decision ([Q < c]) carries no [remaining] field at
    all; in both cases the handler reports [max 0 (Q - c)] in the
    [X-RateLimit-Remaining] header. *)
Theorem C2_remaining (now : Z) (apiKey : string) (Q c : Z) (w : world S) (s1 : S) :
  truthy (JStr apiKey) = true ->
  getRateLimitForAPIKey apiKey = JNum Q ->
  client_incr (redisKey_of apiKey (getCurrentWindow env now)) (store w)
    = (Normal c, s1) ->
  (c = 1 ->
   exists b s2,
     client_expire (redisKey_of apiKey (getCurrentWindow env now))
                   (WINDOW_SIZE env * 2) s1 = (Normal b, s2)) ->
  exists d w' resp,
    checkRateLimit env now apiKey w = (Normal d, w') /\
    api_resource env now (Some apiKey) w = (Normal resp, w') /\
    get d "count" = JNum c /\
    (c <= Q ->
       get d "allowed" = JBool true /\ get d "remaining" = JNum (Q - c) /\
       0 <= Q - c /\ Q - c = Z.max 0 (Q - c)) /\
    (Q < c -> get d "allowed" = JBool false /\ own d "remaining" = None) /\
    get (headers resp) "X-RateLimit-Remaining" = JNum (Z.max 0 (Q - c)).
Proof.
  intros Hkey HQ Hincr Hexp.
  assert (Hrun : exists w',
             checkRateLimit env now apiKey w
             = (Normal (verdict (JNum Q) (getTierFromAPIKey apiKey) c), w')).
  { destruct (checkRateLimit_cases now apiKey w) as [lg Hc]. cbv zeta in Hc.
    rewrite Hincr, HQ in Hc. destruct (c =? 1) eqn:E1; [| eauto].
    apply Z.eqb_eq in E1. destruct (Hexp E1) as (b & s2 & He).
    rewrite He in Hc. eauto. }
  destruct Hrun as [w' Hrun].
  set (d := verdict (JNum Q) (getTierFromAPIKey apiKey) c) in *.
  destruct (verdict_fields (JNum Q) (getTierFromAPIKey apiKey) c)
    as (Hl & Ht & Hcount & Ha). fold d in Hl, Ht, Hcount, Ha.
  destruct (api_resource_renders now apiKey w w' d Hkey) as (resp & Hresp & Hh & _).
  { rewrite Hl. discriminate. }
  { rewrite Ht. apply tier_defined. }
  { exact Hrun. }
  exists d, w', resp. repeat split; try assumption.
  - rewrite Ha. cbn. destruct (Q <? c) eqn:E; [lia | reflexivity].
  - unfold d, verdict. cbn. destruct (Q <? c) eqn:E; [lia | reflexivity].
  - lia.
  - lia.
  - rewrite Ha. cbn. destruct (Q <? c) eqn:E; [reflexivity | lia].
  - unfold d, verdict. cbn. destruct (Q <? c) eqn:E; [reflexivity | lia].
  - rewrite Hh. cbn [get own String.eqb Ascii.eqb Bool.eqb].
    unfold d, verdict. cbn [js_gt js_toNumber].
    destruct (Q <? c) eqn:E; cbn.
    + f_equal. lia.
    + unfold js_or. cbn. destruct (Q - c =? 0) eqn:E0; cbn; f_equal; lia.
Qed.

(** C3 (amended): when the increment is rejected, [checkRateLimit] returns
    the decision with [allowed = true], [count = 0] and [remaining] and
    [limit] equal to the quota; that decision has no field beyond the five
    of any other decision, so nothing in it marks it as degraded: the
    failure is only handed to the logger as an error event. *)
Theorem C3_fail_open (now : Z) (apiKey : string) (w : world S) (e : js_error) (s1 : S) :
  client_incr (redisKey_of apiKey (getCurrentWindow env now)) (store w)
    = (Throw e, s1) ->
  exists d w',
    checkRateLimit env now apiKey w = (Normal d, w') /\
    get d "allowed" = JBool true /\
    get d "count" = JNum 0 /\
    get d "remaining" = getRateLimitForAPIKey apiKey /\
    get d "limit" = getRateLimitForAPIKey apiKey /\
    map fst d = decision_fields /\
    ~ flagged d /\
    exists meta,
      last (logs w') =
      Some (Log LError "[RateLimit] Redis operation failed - failing open" meta) /\
      get meta "message" = JStr (err_message e).
Proof.
  intros Hincr. run_limiter. rewrite Hincr. cbn [store commands logs].
  eexists; eexists. split; [reflexivity |].
  repeat split; try reflexivity.
  - intros (k & Hin & Hn). apply Hn. exact Hin.
  - eexists. split; [apply last_snoc | reflexivity].
Qed.


(** C8 (amended): for every credential and whatever the store replies
    to either command, [checkRateLimit] does not throw and returns a
    decision carrying the quota and the tier of the credential: the
    fail-open decision when the increment or the expiry command is
    rejected, and otherwise the decision on the count the increment
    replied; no store error at request time leaves [checkRateLimit].  The
    process is ended, with exit code 1, when the first connection to the
    store fails, and keeps running when it succeeds. *)
Theorem C8_decision_or_exit (now : Z) (apiKey : string) (w : world S) :
  (exists d w',
     checkRateLimit env now apiKey w = (Normal d, w') /\
     get d "limit" = getRateLimitForAPIKey apiKey /\
     get d "tier" = getTierFromAPIKey apiKey /\
     match client_incr (redisKey_of apiKey (getCurrentWindow env now)) (store w) with
     | (Throw _, _) =>
         d = [("allowed", JBool true); ("count", JNum 0);
              ("limit", getRateLimitForAPIKey apiKey);
              ("tier", getTierFromAPIKey apiKey);
              ("remaining", getRateLimitForAPIKey apiKey)]
     | (Normal c, s1) =>
         if c =? 1 then
           match client_expire (redisKey_of apiKey (getCurrentWindow env now))
                               (WINDOW_SIZE env * 2) s1 with
           | (Throw _, _) =>
               d = [("allowed", JBool true); ("count", JNum 0);
                    ("limit", getRateLimitForAPIKey apiKey);
                    ("tier", getTierFromAPIKey apiKey);
                    ("remaining", getRateLimitForAPIKey apiKey)]
           | (Normal _, _) =>
               d = verdict (getRateLimitForAPIKey apiKey) (getTierFromAPIKey apiKey) c
           end
         else d = verdict (getRateLimitForAPIKey apiKey) (getTierFromAPIKey apiKey) c
     end) /\
  (forall (c : Z),
     get (verdict (getRateLimitForAPIKey apiKey) (getTierFromAPIKey apiKey) c) "count"
     = JNum c /\
     get (verdict (getRateLimitForAPIKey apiKey) (getTierFromAPIKey apiKey) c) "allowed"
     = JBool (negb (js_gt (JNum c) (getRateLimitForAPIKey apiKey)))) /\
  (forall host port e, fst (initial_connection host port (Throw e)) = Exited 1) /\
  (forall host port, fst (initial_connection host port (Normal tt)) = Running).
Proof.
  split; [| split; [| split]].
  - destruct (checkRateLimit_cases now apiKey w) as [lg Hc]. cbv zeta in Hc.
    destruct (client_incr _ (store w)) as [[c | e] s1].
    + destruct (c =? 1).
      * destruct (client_expire _ _ s1) as [[b | e] s2];
          eexists; eexists; (split; [exact Hc |]).
        -- destruct (verdict_fields (getRateLimitForAPIKey apiKey)
                       (getTierFromAPIKey apiKey) c) as (Hl & Ht & _).
           auto.
        -- repeat split.
      * eexists; eexists; (split; [exact Hc |]).
        destruct (verdict_fields (getRateLimitForAPIKey apiKey)
                    (getTierFromAPIKey apiKey) c) as (Hl & Ht & _).
        auto.
    + eexists; eexists; (split; [exact Hc |]). repeat split.
  - intros c.
    destruct (verdict_fields (getRateLimitForAPIKey apiKey)
                (getTierFromAPIKey apiKey) c) as (_ & _ & Hcount & Ha).
    auto.
  - intros host port e. reflexivity.
  - intros host port. reflexivity.
Qed.

(** For a credential whose quota is a number [Q], the handler turns the
    decision of [checkRateLimit] into a response carrying the limit, the
    remaining count, the window length and the tier as headers; a denied
    decision gives status 429 with [retryAfter] equal to the window
    length and the tier in the body; an allowed decision gives status 200. *)
Lemma rendering_with_quota (now : Z) (apiKey : string) (Q : Z) (w w' : world S) (d : jsobj) :
  truthy (JStr apiKey) = true ->
  getRateLimitForAPIKey apiKey = JNum Q ->
  checkRateLimit env now apiKey w = (Normal d, w') ->
  exists resp,
    api_resource env now (Some apiKey) w = (Normal resp, w') /\
    headers resp =
      [("X-RateLimit-Limit", JNum Q);
       ("X-RateLimit-Remaining", js_or (get d "remaining") (JNum 0));
       ("X-RateLimit-Window", JNum (WINDOW_SIZE env));
       ("X-RateLimit-Tier", getTierFromAPIKey apiKey)] /\
    (get d "allowed" = JBool false ->
       status resp = 429 /\
       field (body resp) "retryAfter" = JNum (WINDOW_SIZE env) /\
       field (body resp) "tier" = getTierFromAPIKey apiKey) /\
    (get d "allowed" = JBool true -> status resp = 200).
Proof.
  intros Hkey HQ Hrun.
  destruct (decision_fields_of _ _ _ _ _ Hrun) as (Hl & Ht & _).
  rewrite HQ in Hl.
  destruct (api_resource_renders now apiKey w w' d Hkey)
    as (resp & Hresp & Hh & Hs & Hdeny & _).
  { rewrite Hl. discriminate. }
  { rewrite Ht. apply tier_defined. }
  { exact Hrun. }
  exists resp. rewrite Hl, Ht in Hh. rewrite Ht in Hdeny.
  split; [exact Hresp |]. split; [exact Hh |]. split.
  - intros Ha. rewrite Ha in Hs, Hdeny. cbn in Hs.
    destruct (Hdeny eq_refl). auto.
  - intros Ha. rewrite Ha in Hs. exact Hs.
Qed.

(** C9 (failing input): for the credential "constructor", whatever the
    store does, [checkRateLimit] returns an allowed decision whose limit
    is [undefined], and the handler throws at its first [setHeader]
    instead of rendering that allowed decision as a success. *)
Theorem C9_allowed_not_rendered (now : Z) (w : world S) :
  exists d w' e,
    checkRateLimit env now "constructor" w = (Normal d, w') /\
    get d "allowed" = JBool true /\
    get d "limit" = JUndefined /\
    api_resource env now (Some "constructor") w = (Throw e, w').
Proof.
  destruct (checkRateLimit env now "constructor" w) as [[d | e] w'] eqn:Hrun.
  - destruct (decision_shape _ _ _ _ _ Hrun) as [Hd | [c Hd]];
      exists d, w'; eexists;
      (split; [reflexivity |]);
      (split; [rewrite Hd; reflexivity |]);
      (split; [rewrite Hd; reflexivity |]);
      unfold api_resource; cbn [truthy]; unfold bind; rewrite Hrun, Hd; reflexivity.
  - exfalso.
    destruct (checkRateLimit_cases now "constructor" w) as [lg Hc]. cbv zeta in Hc.
    destruct (client_incr _ (store w)) as [[c | e'] s1].
    + destruct (c =? 1).
      * destruct (client_expire _ _ s1) as [[b | e'] s2];
          rewrite Hc in Hrun; discriminate.
      * rewrite Hc in Hrun; discriminate.
    + rewrite Hc in Hrun; discriminate.
Qed.

End AnyStore.

(** *** The window clock *)

Lemma window_in_seconds (env : option string) (ms : Z) :
  0 < WINDOW_SIZE env ->
  getCurrentWindow env ms = (ms / 1000) / WINDOW_SIZE env.
Proof.
  intros HW. unfold getCurrentWindow.
  rewrite (Z.mul_comm (WINDOW_SIZE env) 1000).
  symmetry. apply Z.div_div; lia.
Qed.

Lemma window_of_bucket (env : option string) (k ms : Z) :
  0 < WINDOW_SIZE env -> in_bucket env k ms -> getCurrentWindow env ms = k.
Proof.
  intros HW [Hlo Hhi]. rewrite window_in_seconds by assumption.
  symmetry. apply Z.div_unique with (r := ms / 1000 - k * WINDOW_SIZE env); lia.
Qed.

Lemma window_bounds (env : option string) (t win : Z) :
  0 < WINDOW_SIZE env ->
  getCurrentWindow env t = win ->
  win * (WINDOW_SIZE env * 1000) <= t < (win + 1) * (WINDOW_SIZE env * 1000).
Proof.
  intros HW <-. unfold getCurrentWindow.
  set (b := WINDOW_SIZE env * 1000).
  assert (Hb : 0 < b) by (unfold b; lia).
  pose proof (Z.mul_div_le t b Hb).
  pose proof (Z.mul_succ_div_gt t b Hb).
  lia.
Qed.

(** C5: with a positive window length, the identifier computed from
    milliseconds is the floor of the Unix time in seconds over the window
    length; two timestamps of one bucket get the same identifier, and two
    timestamps in adjacent buckets get identifiers that differ by one. *)
Theorem C5_window_identifier (env : option string) :
  0 < WINDOW_SIZE env ->
  (forall ms, getCurrentWindow env ms = (ms / 1000) / WINDOW_SIZE env) /\
  (forall k t1 t2,
     in_bucket env k t1 -> in_bucket env k t2 ->
     getCurrentWindow env t1 = getCurrentWindow env t2) /\
  (forall k t1 t2,
     in_bucket env k t1 -> in_bucket env (k + 1) t2 ->
     getCurrentWindow env t2 = getCurrentWindow env t1 + 1).
Proof.
  intros HW. split; [| split].
  - intros ms. apply window_in_seconds, HW.
  - intros k t1 t2 H1 H2.
    rewrite (window_of_bucket env k t1), (window_of_bucket env k t2); auto.
  - intros k t1 t2 H1 H2.
    rewrite (window_of_bucket env k t1), (window_of_bucket env (k + 1) t2); auto.
Qed.

Lemma C5_window_identifier_witness :
  0 < WINDOW_SIZE None /\
  getCurrentWindow None 119999 = (119999 / 1000) / WINDOW_SIZE None /\
  getCurrentWindow None 60000 = getCurrentWindow None 119999 /\
  getCurrentWindow None 120000 = getCurrentWindow None 119999 + 1.
Proof.
  assert (HW : 0 < WINDOW_SIZE None) by reflexivity.
  destruct (C5_window_identifier None HW) as (Hs & Hsame & Hnext).
  split; [exact HW |]. split; [apply Hs |]. split.
  - apply (Hsame 1); unfold in_bucket; vm_compute; split; congruence.
  - apply (Hnext 1); unfold in_bucket; vm_compute; split; congruence.
Defined.

(** *** Sequential calls against the shared store *)

Section SharedStore.

Variable env : option string.

(** A reachable store creating the counter: the count is 1 and the key
    receives a deadline two window lengths ahead. *)
Lemma first_call (t : Z) (apiKey : string) (w : world redis) :
  0 < WINDOW_SIZE env ->
  kv (store w) !! redisKey_of apiKey (getCurrentWindow env t) = None ->
  exists w1,
    checkRateLimit env t apiKey (arrive (healthy t apiKey) w) =
    (Normal (verdict (getRateLimitForAPIKey apiKey) (getTierFromAPIKey apiKey) 1), w1) /\
    kv (store w1) !! redisKey_of apiKey (getCurrentWindow env t) =
    Some (Entry 1 (Some (t + WINDOW_SIZE env * 2 * 1000))).
Proof.
  intros HW Hnone.
  destruct (checkRateLimit_cases env t apiKey (arrive (healthy t apiKey) w)) as [lg Hc].
  cbv zeta in Hc.
  set (key := redisKey_of apiKey (getCurrentWindow env t)) in *.
  cbn [client_incr client_expire redis_client arrive healthy store at_ms
       incr_fails expire_fails] in Hc.
  unfold redis_INCR, redis_EXPIRE, lookup_live in Hc.
  cbn [incr_down expire_down kv clock] in Hc.
  rewrite Hnone in Hc. cbn [value Z.eqb Pos.eqb] in Hc.
  rewrite lookup_insert_eq in Hc. cbn [live deadline] in Hc.
  destruct (WINDOW_SIZE env * 2 <=? 0) eqn:E; [lia |].
  eexists. split; [exact Hc |].
  cbn [store kv]. apply lookup_insert_eq.
Qed.

(** A reachable store holding a live counter: the count goes up by one
    and the deadline stays. *)
Lemma next_call (t : Z) (apiKey : string) (w : world redis) (v dl : Z) :
  kv (store w) !! redisKey_of apiKey (getCurrentWindow env t)
    = Some (Entry v (Some dl)) ->
  t < dl -> 1 <= v ->
  exists w1,
    checkRateLimit env t apiKey (arrive (healthy t apiKey) w) =
    (Normal (verdict (getRateLimitForAPIKey apiKey) (getTierFromAPIKey apiKey) (v + 1)),
     w1) /\
    kv (store w1) !! redisKey_of apiKey (getCurrentWindow env t) =
    Some (Entry (v + 1) (Some dl)).
Proof.
  intros Hsome Hlive Hv.
  destruct (checkRateLimit_cases env t apiKey (arrive (healthy t apiKey) w)) as [lg Hc].
  cbv zeta in Hc.
  set (key := redisKey_of apiKey (getCurrentWindow env t)) in *.
  cbn [client_incr client_expire redis_client arrive healthy store at_ms
       incr_fails expire_fails] in Hc.
  unfold redis_INCR, lookup_live in Hc.
  cbn [incr_down expire_down kv clock] in Hc.
  rewrite Hsome in Hc. cbn [live deadline value] in Hc.
  destruct (t <? dl) eqn:E; [| lia].
  cbn [value deadline] in Hc.
  destruct (v + 1 =? 1) eqn:E1; [lia |].
  eexists. split; [exact Hc |].
  cbn [store kv]. apply lookup_insert_eq.
Qed.

Lemma serve_length (rs : list request) (w : world redis) :
  length (fst (serve env rs w)) = length rs.
Proof.
  revert w. induction rs as [| r rest IH]; intros w; cbn [serve]; [reflexivity |].
  destruct (checkRateLimit env (at_ms r) (credential r) (arrive r w)) as [d w1].
  specialize (IH w1). destruct (serve env rest w1) as [ds w2].
  cbn in *. lia.
Qed.

(** Counts of the calls that follow the first one in a window. *)
Lemma serve_counts (apiKey : string) (win : Z) (ts : list Z) :
  forall (w : world redis) (v dl : Z),
    Forall (fun t => getCurrentWindow env t = win) ts ->
    0 < WINDOW_SIZE env ->
    kv (store w) !! redisKey_of apiKey win = Some (Entry v (Some dl)) ->
    (win + 1) * (WINDOW_SIZE env * 1000) <= dl ->
    1 <= v ->
    forall (i : nat) (d : completion jsobj),
      fst (serve env (map (fun t => healthy t apiKey) ts) w) !! i = Some d ->
      d = Normal (verdict (getRateLimitForAPIKey apiKey) (getTierFromAPIKey apiKey)
                          (v + 1 + Z.of_nat i)).
Proof.
  induction ts as [| t rest IH]; intros w v dl Hwin HW Hsome Hdl Hv i d Hi.
  - destruct i; discriminate.
  - inversion Hwin as [| ? ? Ht Hrest]; subst.
    pose proof (window_bounds env t _ HW eq_refl) as Hb.
    destruct (next_call t apiKey w v dl Hsome ltac:(lia) Hv) as (w1 & Hrun & Hkv).
    cbn [map serve] in Hi. cbn [at_ms credential healthy] in Hi.
    rewrite Hrun in Hi.
    destruct (serve env (map (fun t0 => healthy t0 apiKey) rest) w1) as [ds w2] eqn:Es.
    destruct i as [| i].
    + cbn in Hi. inversion Hi. f_equal. f_equal. lia.
    + cbn in Hi.
      assert (Hi' : fst (serve env (map (fun t0 => healthy t0 apiKey) rest) w1) !! i
                    = Some d) by (rewrite Es; exact Hi).
      rewrite (IH w1 (v + 1) dl Hrest HW Hkv Hdl ltac:(lia) i d Hi').
      f_equal. f_equal. lia.
Qed.

(** C1: for a credential with quota [Q] and a reachable store, sequential
    calls within one window on a fresh counter get the counts 1, 2, 3, ...
    from the increment, and the decision of the call that got count [c] is
    allowed exactly when [c <= Q]: the first [Q] calls are allowed and the
    next one is denied. *)
Theorem C1_quota_boundary (apiKey : string) (Q win : Z) (ts : list Z) (w : world redis) :
  0 < WINDOW_SIZE env ->
  getRateLimitForAPIKey apiKey = JNum Q ->
  Forall (fun t => getCurrentWindow env t = win) ts ->
  kv (store w) !! redisKey_of apiKey win = None ->
  length (fst (serve env (map (fun t => healthy t apiKey) ts) w)) = length ts /\
  forall (i : nat) (d : completion jsobj),
    fst (serve env (map (fun t => healthy t apiKey) ts) w) !! i = Some d ->
    count_of d = JNum (Z.of_nat i + 1) /\
    allowed_of d = JBool (Z.of_nat i + 1 <=? Q) /\
    (Z.of_nat i < Q -> allowed_of d = JBool true) /\
    (Z.of_nat i = Q -> allowed_of d = JBool false).
Proof.
  intros HW HQ Hwin Hnone. split.
  { rewrite serve_length. apply length_map. }
  intros i d Hi.
  assert (Hd : d = Normal (verdict (JNum Q) (getTierFromAPIKey apiKey) (Z.of_nat i + 1))).
  { rewrite <- HQ. destruct ts as [| t rest]; [destruct i; discriminate |].
    inversion Hwin as [| ? ? Ht Hrest]; subst.
    pose proof (window_bounds env t _ HW eq_refl) as Hb.
    destruct (first_call t apiKey w HW Hnone) as (w1 & Hrun & Hkv).
    cbn [map serve] in Hi. cbn [at_ms credential healthy] in Hi.
    rewrite Hrun in Hi.
    destruct (serve env (map (fun t0 => healthy t0 apiKey) rest) w1) as [ds w2] eqn:Es.
    destruct i as [| i].
    - cbn in Hi. inversion Hi. reflexivity.
    - cbn in Hi.
      assert (Hi' : fst (serve env (map (fun t0 => healthy t0 apiKey) rest) w1) !! i
                    = Some d) by (rewrite Es; exact Hi).
      rewrite (serve_counts apiKey _ rest w1 1 _ Hrest HW Hkv ltac:(lia) ltac:(lia) i d Hi').
      f_equal. f_equal. lia. }
  subst d. cbn [count_of allowed_of].
  destruct (verdict_fields (JNum Q) (getTierFromAPIKey apiKey) (Z.of_nat i + 1))
    as (_ & _ & Hc & Ha).
  rewrite Hc, Ha. cbn [js_gt js_toNumber].
  rewrite <- Z.leb_antisym.
  repeat split.
  - intros Hlt. f_equal. apply Z.leb_le. lia.
  - intros Heq. f_equal. apply Z.leb_gt. lia.
Qed.

(** *** A counter without a deadline *)

Lemma incr_keeps_pinned (key0 key : string) (v : Z) (r r' : redis) (res : completion Z) :
  1 <= v -> pinned key0 v r ->
  redis_INCR key r = (res, r') ->
  pinned key0 v r' /\ (key = key0 -> forall c, res = Normal c -> c <> 1).
Proof.
  intros Hv (v' & Hle & Hkv). unfold redis_INCR.
  destruct (incr_down r).
  - intros Heq; inversion Heq; subst. split; [exists v'; auto | discriminate].
  - destruct (decide (key = key0)) as [-> | Hne].
    + unfold lookup_live. rewrite Hkv. cbn [live deadline value].
      intros Heq; inversion Heq; subst. split.
      * exists (v' + 1). cbn [kv]. rewrite lookup_insert_eq. split; [lia | reflexivity].
      * intros _ c Hc. inversion Hc. lia.
    + intros Heq; inversion Heq; subst. split; [| contradiction].
      exists v'. cbn [kv]. rewrite lookup_insert_ne by assumption. auto.
Qed.

Lemma expire_keeps_pinned (key0 key : string) (v seconds : Z) (r r' : redis)
    (res : completion bool) :
  key <> key0 -> pinned key0 v r ->
  redis_EXPIRE key seconds r = (res, r') ->
  pinned key0 v r'.
Proof.
  intros Hne (v' & Hle & Hkv). unfold redis_EXPIRE.
  destruct (expire_down r); [intros Heq; inversion Heq; subst; exists v'; auto |].
  destruct (lookup_live r key); [| intros Heq; inversion Heq; subst; exists v'; auto].
  destruct (seconds <=? 0); intros Heq; inversion Heq; subst; exists v'; cbn [kv].
  - rewrite lookup_delete_ne by assumption. auto.
  - rewrite lookup_insert_ne by assumption. auto.
Qed.

Lemma call_keeps_pinned (key0 : string) (v : Z) (r : request) (w : world redis) :
  1 <= v -> pinned key0 v (store w) ->
  exists sent,
    commands (snd (checkRateLimit env (at_ms r) (credential r) (arrive r w)))
      = commands w ++ sent /\
    (forall s, ~ In (Expire key0 s) sent) /\
    pinned key0 v (store (snd (checkRateLimit env (at_ms r) (credential r) (arrive r w)))).
Proof.
  intros Hv Hp.
  assert (Hp0 : pinned key0 v (store (arrive r w))) by exact Hp.
  destruct (checkRateLimit_cases env (at_ms r) (credential r) (arrive r w)) as [lg Hc].
  cbv zeta in Hc.
  set (key := redisKey_of (credential r) (getCurrentWindow env (at_ms r))) in *.
  cbn [client_incr client_expire redis_client] in Hc.
  change (commands (arrive r w)) with (commands w) in Hc.
  destruct (redis_INCR key (store (arrive r w))) as [[c | e] s1] eqn:Ei.
  - destruct (incr_keeps_pinned key0 key v _ _ _ Hv Hp0 Ei) as [Hp1 Hfirst].
    destruct (c =? 1) eqn:E1.
    + apply Z.eqb_eq in E1.
      assert (Hne : key <> key0).
      { intros Heq. exact (Hfirst Heq c eq_refl E1). }
      destruct (redis_EXPIRE key (WINDOW_SIZE env * 2) s1) as [[b | e] s2] eqn:Ee;
        pose proof (expire_keeps_pinned key0 key v _ _ _ _ Hne Hp1 Ee) as Hp2;
        rewrite Hc; cbn [snd commands store]; rewrite <- app_assoc;
        (eexists; split; [reflexivity | split; [| exact Hp2]]);
        intros s [Hd | [Hd | []]]; try discriminate; inversion Hd; contradiction.
    + rewrite Hc; cbn [snd commands store].
      eexists; split; [reflexivity | split; [| exact Hp1]].
      intros s [Hd | []]; discriminate.
  - destruct (incr_keeps_pinned key0 key v _ _ _ Hv Hp0 Ei) as [Hp1 _].
    rewrite Hc; cbn [snd commands store].
    eexists; split; [reflexivity | split; [| exact Hp1]].
    intros s [Hd | []]; discriminate.
Qed.

Lemma serve_keeps_pinned (key0 : string) (v : Z) (rs : list request) :
  forall w : world redis,
    1 <= v -> pinned key0 v (store w) ->
    exists sent,
      commands (snd (serve env rs w)) = commands w ++ sent /\
      (forall s, ~ In (Expire key0 s) sent) /\
      pinned key0 v (store (snd (serve env rs w))).
Proof.
  induction rs as [| r rest IH]; intros w Hv Hp.
  - exists []. cbn [serve snd]. rewrite app_nil_r. auto.
  - destruct (call_keeps_pinned key0 v r w Hv Hp) as (sent1 & Hc1 & Hn1 & Hp1).
    cbn [serve].
    destruct (checkRateLimit env (at_ms r) (credential r) (arrive r w)) as [d w1].
    cbn [snd] in Hc1, Hp1.
    destruct (IH w1 Hv Hp1) as (sent2 & Hc2 & Hn2 & Hp2).
    destruct (serve env rest w1) as [ds w2]. cbn [snd] in *.
    exists (sent1 ++ sent2). rewrite Hc2, Hc1, app_assoc.
    split; [reflexivity | split; [| exact Hp2]].
    intros s Hin. apply in_app_or in Hin. destruct Hin as [Hin | Hin].
    + exact (Hn1 s Hin).
    + exact (Hn2 s Hin).
Qed.

(** C10: when the store accepts the increment that creates the counter
    (count 1) and rejects the expiry command that follows,
    [checkRateLimit] returns the fail-open decision ([allowed = true],
    [count = 0], [remaining] equal to the quota) although the counter in
    the store is 1 and has no deadline; whatever requests are served
    afterwards, no expiry command is sent for that key and the counter
    keeps having no deadline. *)
Theorem C10_expiry_failure (now : Z) (apiKey : string) (w : world redis) :
  incr_down (store w) = false ->
  expire_down (store w) = true ->
  lookup_live (store w) (redisKey_of apiKey (getCurrentWindow env now)) = None ->
  exists s1 e d w',
    client_incr (redisKey_of apiKey (getCurrentWindow env now)) (store w)
      = (Normal 1, s1) /\
    client_expire (redisKey_of apiKey (getCurrentWindow env now))
                  (WINDOW_SIZE env * 2) s1 = (Throw e, s1) /\
    checkRateLimit env now apiKey w = (Normal d, w') /\
    get d "allowed" = JBool true /\
    get d "count" = JNum 0 /\
    get d "remaining" = getRateLimitForAPIKey apiKey /\
    kv (store w') !! redisKey_of apiKey (getCurrentWindow env now)
      = Some (Entry 1 None) /\
    forall rs : list request,
      exists sent v,
        commands (snd (serve env rs w')) = commands w' ++ sent /\
        (forall s, ~ In (Expire (redisKey_of apiKey (getCurrentWindow env now)) s) sent) /\
        1 <= v /\
        kv (store (snd (serve env rs w'))) !! redisKey_of apiKey (getCurrentWindow env now)
          = Some (Entry v None).
Proof.
  intros Hi He Hnone.
  set (key := redisKey_of apiKey (getCurrentWindow env now)) in *.
  destruct (checkRateLimit_cases env now apiKey w) as [lg Hc]. cbv zeta in Hc.
  fold key in Hc.
  cbn [client_incr client_expire redis_client] in *.
  unfold redis_INCR in *. rewrite Hi, Hnone in *. cbn [value Z.eqb Pos.eqb] in Hc.
  unfold redis_EXPIRE in *. cbn [expire_down] in *. rewrite He in *.
  eexists; exists connection_error; eexists; eexists.
  split; [reflexivity |]. split; [reflexivity |]. split; [exact Hc |].
  split; [reflexivity |]. split; [reflexivity |]. split; [reflexivity |].
  assert (Hkv : kv (Redis (clock (store w)) (<[key := Entry 1 None]> (kv (store w)))
                       false (expire_down (store w))) !! key = Some (Entry 1 None))
    by apply lookup_insert_eq.
  split; [exact Hkv |].
  intros rs.
  match goal with
  | |- context [serve env rs ?w1] =>
      destruct (serve_keeps_pinned key 1 rs w1 ltac:(lia)) as (sent & Hs & Hn & v & Hv & Hp)
  end.
  { exists 1. split; [lia | exact Hkv]. }
  exists sent, v. auto.
Qed.

End SharedStore.

(** *** Tier resolution *)

(** A credential that is neither configured nor the name of a property of
    [Object.prototype] gets the free tier and its quota of 5. *)
Lemma unknown_credential_default (apiKey : string) :
  own API_KEYS apiKey = None ->
  own Object_prototype apiKey = None ->
  getTierFromAPIKey apiKey = JStr "free" /\ getRateLimitForAPIKey apiKey = JNum 5.
Proof.
  intros Hk Hp. unfold getRateLimitForAPIKey, getTierFromAPIKey, get.
  rewrite Hk, Hp. split; reflexivity.
Qed.

(** C6 (failing input): the credential "constructor" is not in the
    credential table, yet [API_KEYS["constructor"]] finds the function
    inherited from [Object.prototype]; the tier is that function instead
    of the free tier, its quota is [undefined], no count exceeds it, and
    seven sequential requests within one window are all allowed. *)
Theorem C6_inherited_key :
  own API_KEYS "constructor" = None /\
  getTierFromAPIKey "constructor" = JFun "Object" /\
  getRateLimitForAPIKey "constructor" = JUndefined /\
  (forall c, js_gt (JNum c) (getRateLimitForAPIKey "constructor") = false) /\
  map allowed_of
      (fst (serve None
              (map (fun t => healthy t "constructor")
                   [1000; 2000; 3000; 4000; 5000; 6000; 7000])
              fresh))
  = [JBool true; JBool true; JBool true; JBool true; JBool true; JBool true;
     JBool true].
Proof.
  split; [reflexivity |]. split; [reflexivity |]. split; [reflexivity |].
  split; [intros c; reflexivity |]. vm_compute. reflexivity.
Qed.

(** *** Window length configuration *)

Lemma WINDOW_SIZE_nonzero (env : option string) : WINDOW_SIZE env <> 0.
Proof.
  unfold WINDOW_SIZE. destruct (parseInt env) as [n |]; [| discriminate].
  destruct (n =? 0) eqn:E; [discriminate | apply Z.eqb_neq, E].
Qed.

(** C7 (counterexample): with [WINDOW_SIZE=0] in the environment the
    program is not stopped: it serves requests with the default window of
    60 seconds; with [WINDOW_SIZE=-5] it serves them with a window length
    of -5, sending an expiry of -10 seconds to the store. *)
Lemma C7_counterexample :
  WINDOW_SIZE (Some "0") = 60 /\
  WINDOW_SIZE (Some "-5") = -5 /\
  match api_resource (Some "0") 1000 (Some "sk_test_free_1") fresh with
  | (Normal resp, _) =>
      status resp = 200 /\ get (headers resp) "X-RateLimit-Window" = JNum 60
  | (Throw _, _) => False
  end /\
  match api_resource (Some "-5") 1000 (Some "sk_test_free_1") fresh with
  | (Normal resp, w') =>
      status resp = 200 /\
      get (headers resp) "X-RateLimit-Window" = JNum (-5) /\
      commands w' = [Incr "rate_limit:sk_test_free_1:-1";
                     Expire "rate_limit:sk_test_free_1:-1" (-10)]
  | (Throw _, _) => False
  end.
Proof. vm_compute. repeat split; reflexivity. Qed.

(** C7 (amended): no window length is refused at startup; a configured
    length that is zero, absent or not a number is replaced by the default
    of 60 seconds, so the window length in use is never zero, and every
    call of [checkRateLimit] returns a decision. *)
Theorem C7_window_length_default {S : Type} `{RedisClient S} (env : option string) :
  WINDOW_SIZE env <> 0 /\
  match parseInt env with
  | None | Some 0 => WINDOW_SIZE env = 60
  | Some _ => True
  end /\
  forall (now : Z) (apiKey : string) (w : world S),
    exists d, fst (checkRateLimit env now apiKey w) = Normal d.
Proof.
  split; [apply WINDOW_SIZE_nonzero |]. split.
  - unfold WINDOW_SIZE. destruct (parseInt env) as [[| p | p] |]; auto.
  - intros now apiKey w.
    destruct (checkRateLimit_cases env now apiKey w) as [lg Hc]. cbv zeta in Hc.
    destruct (client_incr _ (store w)) as [[c | e] s1].
    + destruct (c =? 1).
      * destruct (client_expire _ _ s1) as [[b | e] s2]; rewrite Hc; eauto.
      * rewrite Hc; eauto.
    + rewrite Hc; eauto.
Qed.

Lemma C7_window_length_default_witness :
  WINDOW_SIZE (Some "0") <> 0 /\ WINDOW_SIZE (Some "0") = 60 /\
  exists d, fst (checkRateLimit (Some "0") 1000 "sk_test_free_1" fresh) = Normal d.
Proof.
  destruct (C7_window_length_default (S := redis) (Some "0")) as (Hn & Hd & Hr).
  split; [exact Hn |]. split; [exact Hd |]. apply Hr.
Defined.

(** *** Concrete runs *)

(** C2 (counterexample): the sixth call of a free-tier credential gets
    count 6 from the increment; the decision returned is denied and has no
    [remaining] field, so reading it gives [undefined], not
    [max 0 (5 - 6)]. *)
Lemma C2_counterexample :
  getRateLimitForAPIKey free_key = JNum 5 /\
  fst (client_incr (redisKey_of free_key (getCurrentWindow None 6000))
                   (store sixth_arrives)) = Normal 6 /\
  match checkRateLimit None 6000 free_key sixth_arrives with
  | (Normal d, _) =>
      get d "allowed" = JBool false /\
      own d "remaining" = None /\
      get d "remaining" = JUndefined /\
      get d "remaining" <> JNum (Z.max 0 (5 - 6))
  | (Throw _, _) => False
  end.
Proof.
  split; [reflexivity |]. split; [vm_compute; reflexivity |].
  vm_compute. repeat split; try reflexivity. discriminate.
Qed.

(** C3 (counterexample): with the increment rejected the decision is the
    fail-open one, and it has exactly the five fields of any allowed
    decision: no field flags it as degraded; the response rendered from it
    is a plain 200 with the four usual headers. *)
Lemma C3_counterexample :
  (exists e s,
     client_incr (redisKey_of free_key (getCurrentWindow None 1000)) (store store_down)
     = (Throw e, s)) /\
  fst (checkRateLimit None 1000 free_key store_down)
  = Normal [("allowed", JBool true); ("count", JNum 0); ("limit", JNum 5);
            ("tier", JStr "free"); ("remaining", JNum 5)] /\
  ~ flagged [("allowed", JBool true); ("count", JNum 0); ("limit", JNum 5);
             ("tier", JStr "free"); ("remaining", JNum 5)] /\
  match api_resource None 1000 (Some free_key) store_down with
  | (Normal resp, _) =>
      status resp = 200 /\
      map fst (headers resp)
      = ["X-RateLimit-Limit"; "X-RateLimit-Remaining"; "X-RateLimit-Window";
         "X-RateLimit-Tier"] /\
      field (body resp) "rateLimit"
      = JObj [("tier", JStr "free"); ("limit", JNum 5); ("remaining", JNum 5);
              ("windowSize", JNum 60)]
  | (Throw _, _) => False
  end.
Proof.
  split; [eexists; eexists; reflexivity |].
  split; [vm_compute; reflexivity |].
  split; [intros (k & Hin & Hn); apply Hn; exact Hin |].
  vm_compute. repeat split; reflexivity.
Qed.

(** C8 (counterexample): when the first connection to the store is
    refused, the process is ended with exit code 1 by the store client:
    a store failure, not a configuration error, terminates the process. *)
Lemma C8_counterexample :
  fst (initial_connection None None (Throw connection_error)) = Exited 1 /\
  log_message (snd (initial_connection None None (Throw connection_error)))
  = "[Redis] FATAL: Faild to establish initial connection" /\
  get (log_meta (snd (initial_connection None None (Throw connection_error)))) "port"
  = JNum 6379.
Proof. repeat split. Qed.

(** *** Witnesses *)

Lemma C8_decision_or_exit_witness :
  exists d w',
    checkRateLimit None 1000 free_key expire_down_world = (Normal d, w') /\
    d = [("allowed", JBool true); ("count", JNum 0); ("limit", JNum 5);
         ("tier", JStr "free"); ("remaining", JNum 5)].
Proof.
  destruct (C8_decision_or_exit (S := redis) None 1000 free_key expire_down_world)
    as ((d & w' & Hrun & _ & _ & Hd) & _).
  exists d, w'. split; [exact Hrun |]. exact Hd.
Defined.

Lemma C1_quota_boundary_witness :
  0 < WINDOW_SIZE None /\
  getRateLimitForAPIKey free_key = JNum 5 /\
  Forall (fun t => getCurrentWindow None t = 0) [1000; 2000; 3000; 4000; 5000; 6000] /\
  kv (store fresh) !! redisKey_of free_key 0 = None /\
  length (fst (serve None
                 (map (fun t => healthy t free_key)
                      [1000; 2000; 3000; 4000; 5000; 6000]) fresh)) = 6%nat /\
  forall (i : nat) (d : completion jsobj),
    fst (serve None
           (map (fun t => healthy t free_key) [1000; 2000; 3000; 4000; 5000; 6000])
           fresh) !! i = Some d ->
    count_of d = JNum (Z.of_nat i + 1) /\
    allowed_of d = JBool (Z.of_nat i + 1 <=? 5) /\
    (Z.of_nat i < 5 -> allowed_of d = JBool true) /\
    (Z.of_nat i = 5 -> allowed_of d = JBool false).
Proof.
  assert (HW : 0 < WINDOW_SIZE None) by reflexivity.
  assert (HQ : getRateLimitForAPIKey free_key = JNum 5) by reflexivity.
  assert (Hts : Forall (fun t => getCurrentWindow None t = 0)
                       [1000; 2000; 3000; 4000; 5000; 6000])
    by (repeat constructor).
  assert (Hnone : kv (store fresh) !! redisKey_of free_key 0 = None) by reflexivity.
  split; [exact HW |]. split; [exact HQ |]. split; [exact Hts |].
  split; [exact Hnone |].
  exact (C1_quota_boundary None free_key 5 0 _ fresh HW HQ Hts Hnone).
Defined.

Lemma C2_remaining_witness :
  truthy (JStr free_key) = true /\
  getRateLimitForAPIKey free_key = JNum 5 /\
  fst (client_incr (redisKey_of free_key (getCurrentWindow None 6000))
                   (store sixth_arrives)) = Normal 6 /\
  exists d w' resp,
    checkRateLimit None 6000 free_key sixth_arrives = (Normal d, w') /\
    api_resource None 6000 (Some free_key) sixth_arrives = (Normal resp, w') /\
    get d "count" = JNum 6 /\
    get d "allowed" = JBool false /\ own d "remaining" = None /\
    get (headers resp) "X-RateLimit-Remaining" = JNum (Z.max 0 (5 - 6)).
Proof.
  assert (Hk : truthy (JStr free_key) = true) by reflexivity.
  assert (HQ : getRateLimitForAPIKey free_key = JNum 5) by reflexivity.
  assert (Hi : client_incr (redisKey_of free_key (getCurrentWindow None 6000))
                           (store sixth_arrives)
               = (Normal 6,
                  snd (client_incr (redisKey_of free_key (getCurrentWindow None 6000))
                                   (store sixth_arrives))))
    by (vm_compute; reflexivity).
  split; [exact Hk |]. split; [exact HQ |].
  split; [rewrite Hi; reflexivity |].
  destruct (C2_remaining None 6000 free_key 5 6 sixth_arrives _ Hk HQ Hi)
    as (d & w' & resp & Hrun & Hresp & Hc & _ & Hden & Hh).
  { intros Hone. discriminate Hone. }
  exists d, w', resp. destruct (Hden ltac:(lia)) as [Ha Ho]. auto 10.
Defined.

Lemma C3_fail_open_witness :
  client_incr (redisKey_of free_key (getCurrentWindow None 1000)) (store store_down)
  = (Throw connection_error, store store_down) /\
  exists d w',
    checkRateLimit None 1000 free_key store_down = (Normal d, w') /\
    get d "allowed" = JBool true /\
    get d "count" = JNum 0 /\
    get d "remaining" = JNum 5 /\
    map fst d = decision_fields /\
    ~ flagged d.
Proof.
  assert (Hi : client_incr (redisKey_of free_key (getCurrentWindow None 1000))
                           (store store_down)
               = (Throw connection_error, store store_down)) by reflexivity.
  split; [exact Hi |].
  destruct (C3_fail_open None 1000 free_key store_down _ _ Hi)
    as (d & w' & Hrun & Ha & Hc & Hr & _ & Hf & Hn & _).
  exists d, w'. auto 10.
Defined.


Lemma rendering_with_quota_witness :
  truthy (JStr free_key) = true /\
  getRateLimitForAPIKey free_key = JNum 5 /\
  exists d w' resp,
    checkRateLimit None 6000 free_key sixth_arrives = (Normal d, w') /\
    get d "allowed" = JBool false /\
    api_resource None 6000 (Some free_key) sixth_arrives = (Normal resp, w') /\
    status resp = 429 /\
    field (body resp) "retryAfter" = JNum (WINDOW_SIZE None) /\
    headers resp =
      [("X-RateLimit-Limit", JNum 5);
       ("X-RateLimit-Remaining", js_or (get d "remaining") (JNum 0));
       ("X-RateLimit-Window", JNum (WINDOW_SIZE None));
       ("X-RateLimit-Tier", getTierFromAPIKey free_key)].
Proof.
  assert (Hk : truthy (JStr free_key) = true) by reflexivity.
  assert (HQ : getRateLimitForAPIKey free_key = JNum 5) by reflexivity.
  split; [exact Hk |]. split; [exact HQ |].
  destruct (checkRateLimit None 6000 free_key sixth_arrives) as [[d | e] w'] eqn:Hrun;
    [| vm_compute in Hrun; discriminate Hrun].
  assert (Ha : get d "allowed" = JBool false).
  { vm_compute in Hrun. inversion Hrun. reflexivity. }
  destruct (rendering_with_quota None 6000 free_key 5 sixth_arrives w' d Hk HQ Hrun)
    as (resp & Hresp & Hh & Hdeny & _).
  destruct (Hdeny Ha) as (Hs & Hretry & _).
  exists d, w', resp. auto 10.
Defined.

Lemma C10_expiry_failure_witness :
  incr_down (store expire_down_world) = false /\
  expire_down (store expire_down_world) = true /\
  lookup_live (store expire_down_world)
              (redisKey_of free_key (getCurrentWindow None 1000)) = None /\
  exists d w',
    checkRateLimit None 1000 free_key expire_down_world = (Normal d, w') /\
    get d "count" = JNum 0 /\
    kv (store w') !! redisKey_of free_key (getCurrentWindow None 1000)
      = Some (Entry 1 None) /\
    exists sent v,
      commands (snd (serve None [healthy 2000 free_key; healthy 3000 free_key] w'))
        = commands w' ++ sent /\
      (forall s, ~ In (Expire (redisKey_of free_key (getCurrentWindow None 1000)) s) sent) /\
      1 <= v /\
      kv (store (snd (serve None [healthy 2000 free_key; healthy 3000 free_key] w')))
         !! redisKey_of free_key (getCurrentWindow None 1000)
      = Some (Entry v None).
Proof.
  assert (H1 : incr_down (store expire_down_world) = false) by reflexivity.
  assert (H2 : expire_down (store expire_down_world) = true) by reflexivity.
  assert (H3 : lookup_live (store expire_down_world)
                 (redisKey_of free_key (getCurrentWindow None 1000)) = None)
    by reflexivity.
  split; [exact H1 |]. split; [exact H2 |]. split; [exact H3 |].
  destruct (C10_expiry_failure None 1000 free_key expire_down_world H1 H2 H3)
    as (s1 & e & d & w' & _ & _ & Hrun & _ & Hc & _ & Hkv & Hlater).
  exists d, w'. split; [exact Hrun |]. split; [exact Hc |]. split; [exact Hkv |].
  apply Hlater.
Defined.

(** *** Scenarios *)

(** Quota 5, window 60 s: six sequential calls in one bucket, then one
    after the window has rolled over. *)
Example scenario_six_then_rollover :
  let ds := fst (serve None
                   (map (fun t => healthy t free_key)
                        [1000; 2000; 3000; 4000; 5000; 6000; 61000])
                   fresh) in
  map allowed_of ds
  = [JBool true; JBool true; JBool true; JBool true; JBool true; JBool false;
     JBool true] /\
  map count_of ds = [JNum 1; JNum 2; JNum 3; JNum 4; JNum 5; JNum 6; JNum 1] /\
  map remaining_of ds
  = [JNum 4; JNum 3; JNum 2; JNum 1; JNum 0; JUndefined; JNum 4].
Proof. vm_compute. repeat split; reflexivity. Qed.

(** A missing or empty credential is answered with 401 before any store
    command is sent. *)
Example scenario_missing_credential :
  (forall env now (w : world redis),
     exists resp w', api_resource env now None w = (Normal resp, w') /\
                     status resp = 401 /\ commands w' = commands w) /\
  (forall env now (w : world redis),
     exists resp w', api_resource env now (Some EmptyString) w = (Normal resp, w') /\
                     status resp = 401 /\ commands w' = commands w).
Proof. split; intros env now w; eexists; eexists; repeat split. Qed.

(** With a negative window length every INCR is followed by an EXPIRE
    that deletes the counter, so the count never passes 1. *)
Example scenario_negative_window :
  map count_of
      (fst (serve (Some "-5")
              (map (fun t => healthy t free_key) [1000; 1001; 1002; 1003; 1004; 1005; 1006])
              fresh))
  = [JNum 1; JNum 1; JNum 1; JNum 1; JNum 1; JNum 1; JNum 1].
Proof. vm_compute. reflexivity. Qed.

(** The credential "constructor" reaches [setHeader] with an undefined
    limit, and the handler throws instead of responding. *)
Example scenario_inherited_key_response :
  exists e w', api_resource None 1000 (Some "constructor") fresh = (Throw e, w').
Proof. eexists; eexists; reflexivity. Qed.

(** * Further properties *)

(** ** Tier resolution *)

Lemma own_In (o : jsobj) (k : string) (v : jsval) :
  own o k = Some v -> In (k, v) o.
Proof.
  induction o as [| [k' v'] rest IH]; cbn [own]; [discriminate |].
  destruct (String.eqb k' k) eqn:E.
  - intros Hv; inversion Hv; subst. apply String.eqb_eq in E. subst. left. reflexivity.
  - intros Hv. right. apply IH, Hv.
Qed.

(** X1: the quota of a credential is 5, 20, 100 or [undefined]; it is
    [undefined] exactly for the credentials that are not configured and
    name a property of [Object.prototype], and the tier is always a
    truthy value. *)
Theorem X1_quota_range (apiKey : string) :
  (getRateLimitForAPIKey apiKey = JNum 5 \/ getRateLimitForAPIKey apiKey = JNum 20 \/
   getRateLimitForAPIKey apiKey = JNum 100 \/ getRateLimitForAPIKey apiKey = JUndefined) /\
  (getRateLimitForAPIKey apiKey = JUndefined <->
   own API_KEYS apiKey = None /\ own Object_prototype apiKey <> None) /\
  truthy (getTierFromAPIKey apiKey) = true.
Proof.
  unfold getRateLimitForAPIKey, getTierFromAPIKey, get.
  destruct (own API_KEYS apiKey) as [v |] eqn:Hk.
  - apply own_In in Hk. cbn in Hk.
    repeat (destruct Hk as [Hk | Hk]; [inversion Hk; subst; clear Hk |]);
      try contradiction;
      (split; [cbn; auto | split; [| reflexivity]]);
      (split; [cbn; discriminate | intros [Hn _]; discriminate Hn]).
  - destruct (own Object_prototype apiKey) as [v |] eqn:Hp.
    + apply own_In in Hp. cbn in Hp.
      repeat (destruct Hp as [Hp | Hp]; [inversion Hp; subst; clear Hp |]);
        try contradiction;
        (split; [cbn; auto | split; [| reflexivity]]);
        (split; [intros _; split; [reflexivity | discriminate] | reflexivity]).
    + split; [cbn; auto | split; [| reflexivity]].
      split; [cbn; discriminate | intros [_ Hn]; contradiction].
Qed.

(** ** The counter key *)

Lemma pretty_N_go_colon (x : N) :
  forall s, has_colon (pretty_N_go x s) = has_colon s.
Proof.
  induction (N.lt_wf_0 x) as [x _ IH]; intros s.
  destruct (N.eq_dec x 0%N) as [-> | Hx].
  - rewrite pretty_N_go_0. reflexivity.
  - rewrite pretty_N_go_step by lia.
    rewrite IH by (apply N.div_lt; lia).
    cbn [has_colon]. unfold pretty_N_char.
    repeat case_match; reflexivity.
Qed.

Lemma pretty_Z_colon (z : Z) : has_colon (pretty z) = false.
Proof.
  assert (HN : forall n : N, has_colon (pretty n) = false).
  { intros n. unfold pretty, pretty_N. case_decide; [reflexivity |].
    apply pretty_N_go_colon. }
  destruct z as [| p | p]; [reflexivity | apply (HN (N.pos p)) |].
  change (pretty (Z.neg p)) with ("-" +:+ pretty (N.pos p)).
  cbn [String.append has_colon]. apply (HN (N.pos p)).
Qed.

Lemma has_colon_append (a p : string) : has_colon (a +:+ String ":" p) = true.
Proof.
  induction a as [| c a IH]; [reflexivity |].
  change (has_colon (String c a +:+ String ":" p))
    with (Ascii.eqb c ":" || has_colon (a +:+ String ":" p)).
  rewrite IH. apply orb_true_r.
Qed.

(** A string is split in one way only at its last colon. *)
Lemma split_last_colon (a1 a2 p1 p2 : string) :
  has_colon p1 = false -> has_colon p2 = false ->
  a1 +:+ String ":" p1 = a2 +:+ String ":" p2 ->
  a1 = a2 /\ p1 = p2.
Proof.
  intros H1 H2. revert a2.
  induction a1 as [| c a1 IH]; intros [| c2 a2]; cbn [String.append]; intros Heq.
  - inversion Heq. auto.
  - inversion Heq as [[Hc Hp]]. rewrite Hp, has_colon_append in H1. discriminate.
  - inversion Heq as [[Hc Hp]]. rewrite <- Hp, has_colon_append in H2. discriminate.
  - inversion Heq as [[Hc Hp]]. destruct (IH a2 Hp) as [-> ->]. auto.
Qed.

Lemma key_tail_inj (apiKey1 apiKey2 : string) (window1 window2 : Z) :
  apiKey1 +:+ String ":" (pretty window1) = apiKey2 +:+ String ":" (pretty window2) ->
  apiKey1 = apiKey2 /\ window1 = window2.
Proof.
  intros Hs.
  destruct (split_last_colon _ _ _ _ (pretty_Z_colon window1) (pretty_Z_colon window2) Hs)
    as [Ha Hp].
  split; [exact Ha |]. apply (inj pretty), Hp.
Qed.

(** X2: the counter key determines the credential and the window: two
    calls use the same key only for the same credential in the same
    window, also when the credential itself contains colons. *)
Theorem X2_key_injective (apiKey1 apiKey2 : string) (window1 window2 : Z) :
  redisKey_of apiKey1 window1 = redisKey_of apiKey2 window2 ->
  apiKey1 = apiKey2 /\ window1 = window2.
Proof.
  unfold redisKey_of. cbn [js_toString]. intros Heq.
  apply key_tail_inj.
  cbn in Heq. inversion Heq as [Htail]. exact Htail.
Qed.

Lemma X2_key_injective_witness :
  redisKey_of "a:1" 2 = "rate_limit:a:1:2" /\
  ("a:1" = "a:1" /\ 2 = 2) /\
  redisKey_of "a" 12 <> redisKey_of "a:1" 2.
Proof.
  split; [reflexivity |]. split.
  - apply (X2_key_injective "a:1" "a:1" 2 2). reflexivity.
  - intros Heq. destruct (X2_key_injective _ _ _ _ Heq) as [Ha _]. discriminate Ha.
Defined.

(** ** Counters of different keys do not interfere *)

Lemma incr_other_key (key key' : string) (r r' : redis) (res : completion Z) :
  key' <> key -> redis_INCR key' r = (res, r') -> kv r' !! key = kv r !! key.
Proof.
  intros Hne. unfold redis_INCR. destruct (incr_down r).
  - intros Heq; inversion Heq; reflexivity.
  - intros Heq; inversion Heq; subst. cbn [kv]. apply lookup_insert_ne, Hne.
Qed.

Lemma expire_other_key (key key' : string) (seconds : Z) (r r' : redis)
    (res : completion bool) :
  key' <> key -> redis_EXPIRE key' seconds r = (res, r') -> kv r' !! key = kv r !! key.
Proof.
  intros Hne. unfold redis_EXPIRE.
  destruct (expire_down r); [intros Heq; inversion Heq; reflexivity |].
  destruct (lookup_live r key'); [| intros Heq; inversion Heq; reflexivity].
  destruct (seconds <=? 0); intros Heq; inversion Heq; subst; cbn [kv].
  - apply lookup_delete_ne, Hne.
  - apply lookup_insert_ne, Hne.
Qed.

Lemma call_other_key (env : option string) (key : string) (r : request) (w : world redis) :
  redisKey_of (credential r) (getCurrentWindow env (at_ms r)) <> key ->
  kv (store (snd (checkRateLimit env (at_ms r) (credential r) (arrive r w)))) !! key
  = kv (store w) !! key.
Proof.
  intros Hne.
  destruct (checkRateLimit_cases env (at_ms r) (credential r) (arrive r w)) as [lg Hc].
  cbv zeta in Hc.
  set (key' := redisKey_of (credential r) (getCurrentWindow env (at_ms r))) in *.
  cbn [client_incr client_expire redis_client] in Hc.
  assert (H0 : kv (store (arrive r w)) !! key = kv (store w) !! key) by reflexivity.
  destruct (redis_INCR key' (store (arrive r w))) as [[c | e] s1] eqn:Ei;
    pose proof (incr_other_key key key' _ _ _ Hne Ei) as H1.
  - destruct (c =? 1).
    + destruct (redis_EXPIRE key' (WINDOW_SIZE env * 2) s1) as [[b | e] s2] eqn:Ee;
        pose proof (expire_other_key key key' _ _ _ _ Hne Ee) as H2;
        rewrite Hc; cbn [snd store]; congruence.
    + rewrite Hc; cbn [snd store]; congruence.
  - rewrite Hc; cbn [snd store]; congruence.
Qed.

Lemma targets_spec (env : option string) (apiKey : string) (win : Z) (r : request) :
  targets env apiKey win r = true <->
  redisKey_of (credential r) (getCurrentWindow env (at_ms r)) = redisKey_of apiKey win.
Proof.
  unfold targets. rewrite andb_true_iff, String.eqb_eq, Z.eqb_eq. split.
  - intros [-> ->]. reflexivity.
  - unfold redisKey_of. cbn [js_toString]. intros Heq.
    apply key_tail_inj.
    cbn in Heq. inversion Heq as [Htail]. exact Htail.
Qed.

Lemma hits_nonneg (env : option string) (apiKey : string) (win : Z) (rs : list request) :
  0 <= hits env apiKey win rs.
Proof.
  induction rs as [| r rest IH]; cbn [hits]; [lia |].
  destruct (targets env apiKey win r); lia.
Qed.

Lemma hits_app (env : option string) (apiKey : string) (win : Z) (l1 l2 : list request) :
  hits env apiKey win (l1 ++ l2) = hits env apiKey win l1 + hits env apiKey win l2.
Proof.
  induction l1 as [| r rest IH]; cbn [hits app]; [lia |]. rewrite IH. lia.
Qed.

Lemma hits_take_le (env : option string) (apiKey : string) (win : Z)
    (n : nat) (rs : list request) :
  hits env apiKey win (take n rs) <= hits env apiKey win rs.
Proof.
  rewrite <- (take_drop n rs) at 2. rewrite hits_app.
  pose proof (hits_nonneg env apiKey win (drop n rs)). lia.
Qed.

(** The counts handed out for one counter, whatever else is served in
    between. *)
Lemma interleaved_counts (env : option string) (apiKey : string) (Q win : Z)
    (rs : list request) :
  0 < WINDOW_SIZE env ->
  getRateLimitForAPIKey apiKey = JNum Q ->
  (forall r, In r rs -> targets env apiKey win r = true ->
             incr_fails r = false /\ expire_fails r = false) ->
  forall (w : world redis) (k : Z),
    0 <= k ->
    (k = 0 -> kv (store w) !! redisKey_of apiKey win = None) ->
    (1 <= k ->
     exists dl, kv (store w) !! redisKey_of apiKey win = Some (Entry k (Some dl)) /\
                (win + 1) * (WINDOW_SIZE env * 1000) <= dl) ->
    forall (i : nat) (r : request) (d : completion jsobj),
      rs !! i = Some r ->
      targets env apiKey win r = true ->
      fst (serve env rs w) !! i = Some d ->
      d = Normal (verdict (JNum Q) (getTierFromAPIKey apiKey)
                          (k + hits env apiKey win (take (S i) rs))).
Proof.
  intros HW HQ. induction rs as [| r0 rest IH]; intros Hok w k Hk H0 H1 i r d Hi Ht Hd.
  - destruct i; discriminate.
  - cbn [serve] in Hd.
    destruct (targets env apiKey win r0) eqn:Et0.
    + (* this request is for the counter *)
      destruct (Hok r0 (or_introl eq_refl) Et0) as [Hf1 Hf2].
      pose proof Et0 as Et0'. unfold targets in Et0'.
      apply andb_true_iff in Et0'. destruct Et0' as [Hc Hwin].
      apply String.eqb_eq in Hc. apply Z.eqb_eq in Hwin.
      destruct r0 as [t0 c0 f1 f2].
      cbn [at_ms credential incr_fails expire_fails] in *. subst c0 f1 f2.
      change (Request t0 apiKey false false) with (healthy t0 apiKey) in *.
      pose proof (window_bounds env t0 _ HW Hwin) as Hb.
      assert (Hstep : exists w1 dl,
                 checkRateLimit env t0 apiKey (arrive (healthy t0 apiKey) w)
                 = (Normal (verdict (JNum Q) (getTierFromAPIKey apiKey) (k + 1)), w1) /\
                 kv (store w1) !! redisKey_of apiKey win = Some (Entry (k + 1) (Some dl)) /\
                 (win + 1) * (WINDOW_SIZE env * 1000) <= dl).
      { rewrite <- HQ.
        destruct (Z.eq_dec k 0) as [-> | Hk0].
        - destruct (first_call env t0 apiKey w HW) as (w1 & Hrun & Hkv).
          { rewrite Hwin. apply H0. reflexivity. }
          rewrite Hwin in Hkv. exists w1. eexists.
          split; [exact Hrun |]. split; [exact Hkv |]. lia.
        - destruct (H1 ltac:(lia)) as (dl & Hkv0 & Hdl).
          destruct (next_call env t0 apiKey w k dl) as (w1 & Hrun & Hkv);
            [rewrite Hwin; exact Hkv0 | lia | lia |].
          rewrite Hwin in Hkv. exists w1, dl. auto. }
      destruct Hstep as (w1 & dl & Hrun & Hkv & Hdl).
      rewrite Hrun in Hd.
      destruct (serve env rest w1) as [ds w2] eqn:Es.
      destruct i as [| i].
      * cbn in Hd. inversion Hd. cbn [firstn hits]. rewrite Et0. f_equal; f_equal; lia.
      * cbn in Hd, Hi.
        assert (Hd' : fst (serve env rest w1) !! i = Some d) by (rewrite Es; exact Hd).
        rewrite (IH (fun r' Hin => Hok r' (or_intror Hin)) w1 (k + 1) ltac:(lia)
                    ltac:(lia) (fun _ => ex_intro _ dl (conj Hkv Hdl)) i r d Hi Ht Hd').
        cbn [firstn hits]. rewrite Et0. f_equal; f_equal; lia.
    + (* a request for another counter *)
      assert (Hne : redisKey_of (credential r0) (getCurrentWindow env (at_ms r0))
                    <> redisKey_of apiKey win).
      { intros Heq. apply targets_spec in Heq. congruence. }
      pose proof (call_other_key env _ r0 w Hne) as Hframe.
      destruct (checkRateLimit env (at_ms r0) (credential r0) (arrive r0 w)) as [d0 w1].
      cbn [snd] in Hframe.
      destruct (serve env rest w1) as [ds w2] eqn:Es.
      destruct i as [| i].
      * cbn in Hi. inversion Hi; subst. congruence.
      * cbn in Hd, Hi.
        assert (Hd' : fst (serve env rest w1) !! i = Some d) by (rewrite Es; exact Hd).
        rewrite (IH (fun r' Hin => Hok r' (or_intror Hin)) w1 k Hk
                    ltac:(rewrite Hframe; exact H0) ltac:(rewrite Hframe; exact H1)
                    i r d Hi Ht Hd').
        cbn [firstn hits]. rewrite Et0. f_equal.
Qed.

(** X3: with a reachable store and a positive window length, the
    requests of one credential in one window get the counts 1, 2, 3, ...
    in their order of arrival and are allowed while the count is at most
    the quota, whatever requests of other credentials or other windows,
    reachable or not, are served in between. *)
Theorem X3_interleaved_counts (env : option string) (apiKey : string) (Q win : Z)
    (rs : list request) (w : world redis) :
  0 < WINDOW_SIZE env ->
  getRateLimitForAPIKey apiKey = JNum Q ->
  kv (store w) !! redisKey_of apiKey win = None ->
  (forall r, In r rs -> targets env apiKey win r = true ->
             incr_fails r = false /\ expire_fails r = false) ->
  forall (i : nat) (r : request) (d : completion jsobj),
    rs !! i = Some r ->
    targets env apiKey win r = true ->
    fst (serve env rs w) !! i = Some d ->
    count_of d = JNum (hits env apiKey win (take (S i) rs)) /\
    allowed_of d = JBool (hits env apiKey win (take (S i) rs) <=? Q).
Proof.
  intros HW HQ Hnone Hok i r d Hi Ht Hd.
  rewrite (interleaved_counts env apiKey Q win rs HW HQ Hok w 0 ltac:(lia)
             (fun _ => Hnone) ltac:(lia) i r d Hi Ht Hd).
  cbn [count_of allowed_of]. rewrite Z.add_0_l.
  destruct (verdict_fields (JNum Q) (getTierFromAPIKey apiKey)
              (hits env apiKey win (take (S i) rs))) as (_ & _ & Hc & Ha).
  rewrite Hc, Ha. cbn [js_gt js_toNumber]. rewrite <- Z.leb_antisym. auto.
Qed.

Lemma X3_interleaved_counts_witness :
  0 < WINDOW_SIZE None /\
  getRateLimitForAPIKey free_key = JNum 5 /\
  mixed_traffic !! 5%nat = Some (healthy 3500 free_key) /\
  exists d,
    fst (serve None mixed_traffic fresh) !! 5%nat = Some d /\
    count_of d = JNum 3 /\ allowed_of d = JBool true.
Proof.
  assert (HW : 0 < WINDOW_SIZE None) by reflexivity.
  assert (HQ : getRateLimitForAPIKey free_key = JNum 5) by reflexivity.
  assert (Hnone : kv (store fresh) !! redisKey_of free_key 0 = None) by reflexivity.
  assert (Hok : forall r, In r mixed_traffic -> targets None free_key 0 r = true ->
                          incr_fails r = false /\ expire_fails r = false).
  { intros r Hin Ht. cbn in Hin.
    repeat (destruct Hin as [<- | Hin]; [first [split; reflexivity | discriminate Ht] |]).
    contradiction. }
  split; [exact HW |]. split; [exact HQ |]. split; [reflexivity |].
  destruct (fst (serve None mixed_traffic fresh) !! 5%nat) as [d |] eqn:Hd;
    [| vm_compute in Hd; discriminate Hd].
  exists d. split; [reflexivity |].
  exact (X3_interleaved_counts None free_key 5 0 mixed_traffic fresh HW HQ Hnone Hok
           5%nat (healthy 3500 free_key) d eq_refl eq_refl Hd).
Defined.

Lemma hits_same_window (env : option string) (apiKey : string) (win : Z) (ts : list Z) :
  Forall (fun t => getCurrentWindow env t = win) ts ->
  hits env apiKey win (map (fun t => healthy t apiKey) ts) = Z.of_nat (length ts).
Proof.
  induction 1 as [| t rest Ht _ IH]; [reflexivity |].
  cbn [map hits length]. rewrite IH. unfold targets. cbn [credential at_ms healthy].
  rewrite String.eqb_refl, Ht, Z.eqb_refl. cbn. lia.
Qed.

Lemma hits_other_window (env : option string) (apiKey : string) (win win' : Z)
    (ts : list Z) :
  win' <> win ->
  Forall (fun t => getCurrentWindow env t = win') ts ->
  hits env apiKey win (map (fun t => healthy t apiKey) ts) = 0.
Proof.
  intros Hne. induction 1 as [| t rest Ht _ IH]; [reflexivity |].
  cbn [map hits]. rewrite IH. unfold targets. cbn [credential at_ms healthy].
  rewrite Ht. destruct (win' =? win) eqn:E; [apply Z.eqb_eq in E; contradiction |].
  rewrite andb_false_r. reflexivity.
Qed.

(** X4: the fixed window lets a burst through at a window edge: with a
    reachable store, up to [Q] requests of a credential in one window
    followed by up to [Q] requests in the next window are all allowed,
    however close in time the two groups are. *)
Theorem X4_boundary_burst (env : option string) (apiKey : string) (Q win : Z)
    (ts1 ts2 : list Z) (w : world redis) :
  0 < WINDOW_SIZE env ->
  getRateLimitForAPIKey apiKey = JNum Q ->
  Forall (fun t => getCurrentWindow env t = win) ts1 ->
  Forall (fun t => getCurrentWindow env t = win + 1) ts2 ->
  Z.of_nat (length ts1) <= Q ->
  Z.of_nat (length ts2) <= Q ->
  kv (store w) !! redisKey_of apiKey win = None ->
  kv (store w) !! redisKey_of apiKey (win + 1) = None ->
  length (fst (serve env (map (fun t => healthy t apiKey) (ts1 ++ ts2)) w))
  = (length ts1 + length ts2)%nat /\
  Forall (fun d => allowed_of d = JBool true)
         (fst (serve env (map (fun t => healthy t apiKey) (ts1 ++ ts2)) w)).
Proof.
  intros HW HQ H1 H2 Hl1 Hl2 Hn1 Hn2.
  set (rs := map (fun t => healthy t apiKey) (ts1 ++ ts2)).
  split.
  { rewrite serve_length. unfold rs. rewrite length_map, length_app. reflexivity. }
  assert (Hok : forall win' r, In r rs -> targets env apiKey win' r = true ->
                               incr_fails r = false /\ expire_fails r = false).
  { intros win' r Hin _. unfold rs in Hin. apply in_map_iff in Hin.
    destruct Hin as (t & <- & _). split; reflexivity. }
  assert (Hh1 : hits env apiKey win rs = Z.of_nat (length ts1)).
  { unfold rs. rewrite map_app, hits_app, (hits_same_window _ _ _ _ H1).
    rewrite (hits_other_window env apiKey win (win + 1) ts2 ltac:(lia) H2). lia. }
  assert (Hh2 : hits env apiKey (win + 1) rs = Z.of_nat (length ts2)).
  { unfold rs. rewrite map_app, hits_app, (hits_same_window _ _ _ _ H2).
    rewrite (hits_other_window env apiKey (win + 1) win ts1 ltac:(lia) H1). lia. }
  apply Forall_lookup. intros i d Hd.
  assert (Hr : exists r, rs !! i = Some r).
  { apply lookup_lt_is_Some. rewrite <- (serve_length env rs w).
    apply lookup_lt_is_Some. eauto. }
  destruct Hr as [r Hr].
  assert (Hin : In r rs).
  { apply list_elem_of_In. apply list_elem_of_lookup. eauto. }
  assert (Hwin : targets env apiKey win r = true \/ targets env apiKey (win + 1) r = true).
  { unfold rs in Hin. apply in_map_iff in Hin. destruct Hin as (t & <- & Hin).
    unfold targets. cbn [credential at_ms healthy]. rewrite String.eqb_refl. cbn [andb].
    apply in_app_or in Hin. rewrite !Z.eqb_eq.
    destruct Hin as [Hin | Hin]; [left | right].
    - rewrite Forall_forall in H1. apply (H1 t). apply list_elem_of_In, Hin.
    - rewrite Forall_forall in H2. apply (H2 t). apply list_elem_of_In, Hin. }
  destruct Hwin as [Ht | Ht].
  - rewrite (interleaved_counts env apiKey Q win rs HW HQ (Hok win) w 0 ltac:(lia)
               (fun _ => Hn1) ltac:(lia) i r d Hr Ht Hd).
    cbn [allowed_of].
    destruct (verdict_fields (JNum Q) (getTierFromAPIKey apiKey)
                (0 + hits env apiKey win (take (S i) rs))) as (_ & _ & _ & Ha).
    rewrite Ha. cbn [js_gt js_toNumber].
    pose proof (hits_take_le env apiKey win (S i) rs).
    destruct (Q <? 0 + hits env apiKey win (take (S i) rs)) eqn:E; [lia | reflexivity].
  - rewrite (interleaved_counts env apiKey Q (win + 1) rs HW HQ (Hok (win + 1)) w 0
               ltac:(lia) (fun _ => Hn2) ltac:(lia) i r d Hr Ht Hd).
    cbn [allowed_of].
    destruct (verdict_fields (JNum Q) (getTierFromAPIKey apiKey)
                (0 + hits env apiKey (win + 1) (take (S i) rs))) as (_ & _ & _ & Ha).
    rewrite Ha. cbn [js_gt js_toNumber].
    pose proof (hits_take_le env apiKey (win + 1) (S i) rs).
    destruct (Q <? 0 + hits env apiKey (win + 1) (take (S i) rs)) eqn:E;
      [lia | reflexivity].
Qed.

Lemma X4_boundary_burst_witness :
  0 < WINDOW_SIZE None /\
  getRateLimitForAPIKey free_key = JNum 5 /\
  length (fst (serve None (map (fun t => healthy t free_key) (burst_before ++ burst_after))
                     fresh)) = 10%nat /\
  Forall (fun d => allowed_of d = JBool true)
         (fst (serve None (map (fun t => healthy t free_key) (burst_before ++ burst_after))
                     fresh)).
Proof.
  assert (HW : 0 < WINDOW_SIZE None) by reflexivity.
  assert (HQ : getRateLimitForAPIKey free_key = JNum 5) by reflexivity.
  split; [exact HW |]. split; [exact HQ |].
  apply (X4_boundary_burst None free_key 5 0 burst_before burst_after fresh HW HQ).
  - repeat constructor.
  - repeat constructor.
  - vm_compute. congruence.
  - vm_compute. congruence.
  - reflexivity.
  - reflexivity.
Defined.

(** ** Lifetime of a counter *)

(** X5: with a positive window length and a reachable store, the call
    that creates a counter leaves it at 1 with a deadline two window
    lengths after the call: the counter is there during the whole of its
    own window and of the next one, and is gone once two window lengths
    have passed since its creation. *)
Theorem X5_counter_lifetime (env : option string) (t : Z) (apiKey : string)
    (w : world redis) :
  0 < WINDOW_SIZE env ->
  kv (store w) !! redisKey_of apiKey (getCurrentWindow env t) = None ->
  exists e,
    kv (store (snd (checkRateLimit env t apiKey (arrive (healthy t apiKey) w))))
      !! redisKey_of apiKey (getCurrentWindow env t) = Some e /\
    value e = 1 /\
    deadline e = Some (t + 2 * WINDOW_SIZE env * 1000) /\
    (forall t', t' < (getCurrentWindow env t + 2) * (WINDOW_SIZE env * 1000) ->
                live t' e = true) /\
    (forall t', t + 2 * WINDOW_SIZE env * 1000 <= t' -> live t' e = false).
Proof.
  intros HW Hnone.
  destruct (first_call env t apiKey w HW Hnone) as (w1 & Hrun & Hkv).
  rewrite Hrun. cbn [snd]. eexists. split; [exact Hkv |].
  pose proof (window_bounds env t _ HW eq_refl) as Hb.
  cbn [value deadline live]. split; [reflexivity |]. split; [f_equal; lia |]. split.
  - intros t' Ht'. apply Z.ltb_lt. lia.
  - intros t' Ht'. apply Z.ltb_ge. lia.
Qed.

Lemma X5_counter_lifetime_witness :
  0 < WINDOW_SIZE None /\
  kv (store fresh) !! redisKey_of free_key (getCurrentWindow None 59000) = None /\
  exists e,
    kv (store (snd (checkRateLimit None 59000 free_key (arrive (healthy 59000 free_key) fresh))))
      !! redisKey_of free_key (getCurrentWindow None 59000) = Some e /\
    deadline e = Some 179000 /\
    live 119999 e = true /\ live 179000 e = false.
Proof.
  assert (HW : 0 < WINDOW_SIZE None) by reflexivity.
  assert (Hnone : kv (store fresh) !! redisKey_of free_key (getCurrentWindow None 59000)
                  = None) by reflexivity.
  split; [exact HW |]. split; [exact Hnone |].
  destruct (X5_counter_lifetime None 59000 free_key fresh HW Hnone)
    as (e & Hkv & _ & Hd & Hlive & Hdead).
  exists e. split; [exact Hkv |]. split; [exact Hd |]. split.
  - apply Hlive. reflexivity.
  - apply Hdead. vm_compute. congruence.
Defined.

(** ** What reaches the logger *)

Lemma substring_length_le (n m : nat) (s : string) :
  (String.length (String.substring n m s) <= m)%nat.
Proof.
  revert n m. induction s as [| c s IH]; intros n m.
  - destruct n, m; cbn; lia.
  - destruct n as [| n].
    + destruct m as [| m]; cbn; [lia |]. specialize (IH 0%nat m). lia.
    + cbn. apply IH.
Qed.

Lemma append_length (a b : string) :
  String.length (a +:+ b) = (String.length a + String.length b)%nat.
Proof.
  induction a as [| c a IH]; [reflexivity |].
  change (S (String.length (a +:+ b)) = S (String.length a + String.length b)).
  rewrite IH. reflexivity.
Qed.

Ltac each_event :=
  repeat (constructor; [first [left; reflexivity | right; reflexivity] |]);
  constructor.

(** X6: in every event that [checkRateLimit] hands to the logger, the
    [apiKey] field, when present, is the credential cut to 15 characters
    followed by three dots, at most 18 characters; the [redisKey] field,
    when present, is the complete counter key, which contains the whole
    credential; and when the store rejects the increment the error event
    carries that complete key. *)
Theorem X6_log_masking {S : Type} `{RedisClient S} (env : option string) (now : Z)
    (apiKey : string) (w : world S) :
  exists events short,
    logs (snd (checkRateLimit env now apiKey w)) = logs w ++ events /\
    masked apiKey = JStr short /\
    (String.length short <= 18)%nat /\
    Forall (fun ev => own (log_meta ev) "apiKey" = None \/
                      own (log_meta ev) "apiKey" = Some (JStr short)) events /\
    Forall (fun ev => own (log_meta ev) "redisKey" = None \/
                      own (log_meta ev) "redisKey"
                      = Some (JStr ("rate_limit:" +:+ apiKey +:+ ":"
                                    +:+ pretty (getCurrentWindow env now)))) events /\
    (forall e s1,
       client_incr (redisKey_of apiKey (getCurrentWindow env now)) (store w) = (Throw e, s1) ->
       Exists (fun ev => log_level ev = LError /\
                         own (log_meta ev) "redisKey"
                         = Some (JStr ("rate_limit:" +:+ apiKey +:+ ":"
                                       +:+ pretty (getCurrentWindow env now)))) events).
Proof.
  exists (skipn (length (logs w)) (logs (snd (checkRateLimit env now apiKey w)))).
  exists (substring0 15 apiKey +:+ "...").
  assert (Hlen : (String.length (substring0 15 apiKey +:+ "...") <= 18)%nat).
  { rewrite append_length. unfold substring0.
    pose proof (substring_length_le 0 15 apiKey). cbn. lia. }
  run_limiter.
  set (key := redisKey_of apiKey (getCurrentWindow env now)).
  destruct (client_incr key (store w)) as [[c | e] s1] eqn:Ei; cbn [store commands logs].
  - destruct (c =? 1); cbn [store commands logs].
    + destruct (client_expire key (WINDOW_SIZE env * 2) s1) as [[b | e] s2];
        cbn [store commands logs];
        [destruct (js_gt (JNum c) (getRateLimitForAPIKey apiKey)) |];
        cbn [snd logs]; rewrite <- ?app_assoc, drop_app_length;
        (split; [reflexivity |]); (split; [reflexivity |]); (split; [exact Hlen |]);
        (split; [each_event |]); (split; [each_event |]);
        intros e' s1' Heq; discriminate Heq.
    + destruct (js_gt (JNum c) (getRateLimitForAPIKey apiKey));
        cbn [snd logs]; rewrite <- ?app_assoc, drop_app_length;
        (split; [reflexivity |]); (split; [reflexivity |]); (split; [exact Hlen |]);
        (split; [each_event |]); (split; [each_event |]);
        intros e' s1' Heq; discriminate Heq.
  - cbn [snd logs]; rewrite <- ?app_assoc, drop_app_length.
    split; [reflexivity |]. split; [reflexivity |]. split; [exact Hlen |].
    split; [each_event |]. split; [each_event |].
    intros e' s1' _. apply Exists_cons_tl, Exists_cons_hd. split; reflexivity.
Qed.

(** ** The in-process limiter *)

Module InMemoryFacts.

Import InMemory.

Lemma plain_lookup (m : memory) (u : string) :
  plain u ->
  lookup m u = match requestCounts m !! u with
               | Some _ => RRecord u
               | None => RUndefined
               end.
Proof.
  intros (Hp & Hc & Hw). unfold lookup. rewrite Hp.
  destruct (requestCounts m !! u); [reflexivity |].
  destruct (String.eqb u "count") eqn:E1; [apply String.eqb_eq in E1; contradiction |].
  destruct (String.eqb u "window") eqn:E2; [apply String.eqb_eq in E2; contradiction |].
  reflexivity.
Qed.

Lemma record_reads (m : memory) (u : string) (v : jsval) (w : Z) :
  v <> JUndefined ->
  requestCounts m !! u = Some (Slot v (Some w)) ->
  own_slot m (RRecord u) = Slot v (Some w) /\
  read_window m (RRecord u) = Some w /\
  read_count m (RRecord u) = v.
Proof.
  intros Hv Hsome. unfold read_window, read_count, own_slot. rewrite Hsome.
  cbn [default window count]. repeat split.
  destruct v; try reflexivity. contradiction.
Qed.

Lemma write_record (m : memory) (u : string) (f : slot -> slot) (s : slot) :
  own_slot m (RRecord u) = s ->
  write m (RRecord u) f
  = Memory (<[u := f s]> (requestCounts m)) (builtins m) (prototype m).
Proof. intros <-. reflexivity. Qed.

(** The first request of a user id: an entry is created and counted. *)
Lemma plain_first (now : Z) (u : string) (m : memory) :
  plain u ->
  requestCounts m !! u = None ->
  checkRateLimit now u m =
  (Normal true,
   Memory (<[u := Slot (JNum 1) (Some (getCurrentWindow now))]> (requestCounts m))
          (builtins m) (prototype m)).
Proof.
  intros Hp Hnone. unfold checkRateLimit. cbv zeta.
  set (cw := getCurrentWindow now).
  rewrite (plain_lookup m u Hp), Hnone. cbn [truthy_referent negb].
  set (m1 := Memory (<[u := Slot (JNum 0) (Some cw)]> (requestCounts m))
                    (builtins m) (prototype m)).
  assert (H1 : requestCounts m1 !! u = Some (Slot (JNum 0) (Some cw)))
    by apply lookup_insert_eq.
  rewrite (plain_lookup m1 u Hp), H1.
  destruct (record_reads m1 u (JNum 0) cw ltac:(discriminate) H1) as (Ho & Hw & Hc).
  rewrite Hw. cbn [differs]. rewrite Z.eqb_refl. cbn [negb].
  rewrite Hc. cbn [incremented js_toNumber Z.add].
  rewrite (write_record m1 u _ _ Ho). cbn [set_count window].
  set (m2 := Memory _ _ _).
  assert (H2 : requestCounts m2 !! u = Some (Slot (JNum 1) (Some cw)))
    by apply lookup_insert_eq.
  destruct (record_reads m2 u (JNum 1) cw ltac:(discriminate) H2) as (_ & _ & Hc2).
  rewrite Hc2. cbn [js_gt js_toNumber]. unfold m2, m1. cbn [requestCounts builtins prototype].
  rewrite insert_insert_eq. reflexivity.
Qed.

(** A later request: the count goes on in the stored window and starts
    again at 1 in any other. *)
Lemma plain_again (now : Z) (u : string) (m : memory) (c w : Z) :
  plain u ->
  requestCounts m !! u = Some (Slot (JNum c) (Some w)) ->
  checkRateLimit now u m =
  (Normal ((if w =? getCurrentWindow now then c + 1 else 1) <=? RATE_LIMIT),
   Memory (<[u := Slot (JNum (if w =? getCurrentWindow now then c + 1 else 1))
                       (Some (getCurrentWindow now))]> (requestCounts m))
          (builtins m) (prototype m)).
Proof.
  intros Hp Hsome. unfold checkRateLimit. cbv zeta.
  set (cw := getCurrentWindow now).
  rewrite (plain_lookup m u Hp), Hsome. cbn [truthy_referent negb].
  rewrite (plain_lookup m u Hp), Hsome.
  destruct (record_reads m u (JNum c) w ltac:(discriminate) Hsome) as (Ho & Hw & Hc).
  rewrite Hw. cbn [differs].
  destruct (w =? cw) eqn:E; cbn [negb].
  - apply Z.eqb_eq in E. subst w.
    rewrite Hc. cbn [incremented js_toNumber].
    rewrite (write_record m u _ _ Ho). cbn [set_count window].
    set (m2 := Memory _ _ _).
    assert (H2 : requestCounts m2 !! u = Some (Slot (JNum (c + 1)) (Some cw)))
      by apply lookup_insert_eq.
    destruct (record_reads m2 u (JNum (c + 1)) cw ltac:(discriminate) H2) as (_ & _ & Hc2).
    rewrite Hc2. cbn [js_gt js_toNumber]. rewrite Z.leb_antisym.
    destruct (RATE_LIMIT <? c + 1); reflexivity.
  - rewrite (write_record m u _ _ Ho). cbn [set_count window].
    set (m1 := Memory _ _ _).
    assert (H1 : requestCounts m1 !! u = Some (Slot (JNum 0) (Some w)))
      by apply lookup_insert_eq.
    destruct (record_reads m1 u (JNum 0) w ltac:(discriminate) H1) as (Ho1 & _ & _).
    rewrite (write_record m1 u _ _ Ho1). cbn [set_window count].
    set (m2 := Memory _ _ _).
    assert (H2 : requestCounts m2 !! u = Some (Slot (JNum 0) (Some cw)))
      by apply lookup_insert_eq.
    destruct (record_reads m2 u (JNum 0) cw ltac:(discriminate) H2) as (Ho2 & _ & Hc2).
    rewrite Hc2. cbn [incremented js_toNumber Z.add].
    rewrite (write_record m2 u _ _ Ho2). cbn [set_count window].
    set (m3 := Memory _ _ _).
    assert (H3 : requestCounts m3 !! u = Some (Slot (JNum 1) (Some cw)))
      by apply lookup_insert_eq.
    destruct (record_reads m3 u (JNum 1) cw ltac:(discriminate) H3) as (_ & _ & Hc3).
    rewrite Hc3. cbn [js_gt js_toNumber].
    unfold m3, m2, m1. cbn [requestCounts builtins prototype].
    rewrite !insert_insert_eq. reflexivity.
Qed.

Lemma lookup_record (m : memory) (u k : string) :
  lookup m u = RRecord k -> k = u /\ is_Some (requestCounts m !! u).
Proof.
  unfold lookup. destruct (requestCounts m !! u) as [s |] eqn:E.
  - intros Hr; inversion Hr. split; [reflexivity | eauto].
  - destruct (own Object_prototype u) as [[] |]; try discriminate.
    destruct (String.eqb u "count").
    + destruct (count (prototype m)); discriminate.
    + destruct (String.eqb u "window"); [| discriminate].
      destruct (window (prototype m)); discriminate.
Qed.

Lemma lookup_builtin (m : memory) (u : string) (v : jsval) :
  requestCounts m !! u = None ->
  own Object_prototype u = Some v ->
  lookup m u = RPrototype \/ lookup m u = RBuiltin u.
Proof.
  intros Hn Hv. unfold lookup. rewrite Hn, Hv. destruct v; auto.
Qed.

(** Writes through the referent of [u] reach no other entry of the
    table, and remove none. *)
Lemma write_table (m : memory) (u : string) (r : referent) (f : slot -> slot) :
  lookup m u = r ->
  (forall k, k <> u -> requestCounts (write m r f) !! k = requestCounts m !! k) /\
  (forall k, is_Some (requestCounts m !! k) -> is_Some (requestCounts (write m r f) !! k)) /\
  ((forall k', r <> RRecord k') -> requestCounts (write m r f) = requestCounts m) /\
  lookup (write m r f) u = r.
Proof.
  intros Hr. destruct r as [k' | n | | v |]; cbn [write requestCounts].
  - destruct (lookup_record m u k' Hr) as [-> Hs].
    split; [| split; [| split]].
    + intros k Hne. apply lookup_insert_ne. congruence.
    + intros k Hk. destruct (decide (u = k)) as [<- | Hne].
      * rewrite lookup_insert_eq. eauto.
      * rewrite lookup_insert_ne by assumption. exact Hk.
    + intros Hk'. exfalso. apply (Hk' u). reflexivity.
    + unfold lookup. cbn [requestCounts]. rewrite lookup_insert_eq. reflexivity.
  - split; [auto | split; [auto | split; [auto |]]].
    rewrite <- Hr. reflexivity.
  - split; [auto | split; [auto | split; [auto |]]].
    rewrite <- Hr. unfold lookup. cbn [requestCounts].
    destruct (requestCounts m !! u); [reflexivity |].
    destruct (own Object_prototype u) as [[] |] eqn:Eo; try reflexivity.
    unfold lookup in Hr. rewrite Eo in Hr.
    destruct (requestCounts m !! u); [discriminate |].
    destruct (String.eqb u "count").
    + destruct (count (prototype m)); discriminate.
    + destruct (String.eqb u "window"); [| discriminate].
      destruct (window (prototype m)); discriminate.
  - split; [auto | split; [auto | split; [auto |]]]. exact Hr.
  - split; [auto | split; [auto | split; [auto |]]]. exact Hr.
Qed.

Lemma checkRateLimit_stages (now : Z) (u : string) (m : memory) :
  checkRateLimit now u m =
  match lookup (ensure (getCurrentWindow now) u m) u with
  | RUndefined => (Throw type_error, ensure (getCurrentWindow now) u m)
  | r =>
      (Normal (negb (js_gt (read_count
                              (bump r (restart (getCurrentWindow now) r
                                         (ensure (getCurrentWindow now) u m))) r)
                           (JNum RATE_LIMIT))),
       bump r (restart (getCurrentWindow now) r (ensure (getCurrentWindow now) u m)))
  end.
Proof.
  unfold checkRateLimit. cbv zeta. fold (ensure (getCurrentWindow now) u m).
  destruct (lookup (ensure (getCurrentWindow now) u m) u) as [k | n | | v |];
    try reflexivity;
    unfold bump, restart;
    match goal with
    | |- (if ?c then _ else _) = _ => destruct c; reflexivity
    end.
Qed.

Lemma table_step_refl (u : string) (m : memory) : table_step u m m.
Proof. split; auto. Qed.

Lemma table_step_trans (u : string) (m1 m2 m3 : memory) :
  table_step u m1 m2 -> table_step u m2 m3 -> table_step u m1 m3.
Proof.
  intros [Ha Hb] [Hc Hd]. split.
  - intros k Hne. rewrite Hc, Ha by assumption. reflexivity.
  - intros k Hk. apply Hd, Hb, Hk.
Qed.

Lemma write_step (m : memory) (u : string) (r : referent) (f : slot -> slot) :
  lookup m u = r ->
  table_step u m (write m r f) /\
  lookup (write m r f) u = r /\
  ((forall k', r <> RRecord k') -> requestCounts (write m r f) = requestCounts m).
Proof.
  intros Hr. destruct (write_table m u r f Hr) as (Ha & Hb & Hc & Hd).
  repeat split; assumption.
Qed.

Lemma ensure_step (cw : Z) (u : string) (m : memory) :
  table_step u m (ensure cw u m) /\
  lookup (ensure cw u m) u <> RUndefined /\
  (forall v, own Object_prototype u = Some v -> requestCounts m !! u = None ->
             ensure cw u m = m).
Proof.
  unfold ensure. destruct (truthy_referent (lookup m u)) eqn:Et; cbn [negb].
  - split; [apply table_step_refl |]. split; [| auto].
    intros Hu. rewrite Hu in Et. discriminate.
  - split; [split |]; [| | split]; cbn [requestCounts].
    + intros k Hne. apply lookup_insert_ne. congruence.
    + intros k Hk. destruct (decide (u = k)) as [<- | Hne].
      * rewrite lookup_insert_eq. eauto.
      * rewrite lookup_insert_ne by assumption. exact Hk.
    + unfold lookup. cbn [requestCounts]. rewrite lookup_insert_eq. discriminate.
    + intros v Hv Hn. destruct (lookup_builtin m u v Hn Hv) as [Hl | Hl];
        rewrite Hl in Et; discriminate.
Qed.

Lemma restart_step (cw : Z) (m : memory) (u : string) (r : referent) :
  lookup m u = r ->
  table_step u m (restart cw r m) /\
  lookup (restart cw r m) u = r /\
  ((forall k', r <> RRecord k') -> requestCounts (restart cw r m) = requestCounts m).
Proof.
  intros Hr. unfold restart. destruct (differs (read_window m r) cw).
  - destruct (write_step m u r (set_count (JNum 0)) Hr) as (Ha & Hb & Hc).
    destruct (write_step _ u r (set_window cw) Hb) as (Ha' & Hb' & Hc').
    split; [eapply table_step_trans; eassumption |]. split; [exact Hb' |].
    intros Hn. rewrite Hc', Hc by assumption. reflexivity.
  - split; [apply table_step_refl |]. auto.
Qed.

Lemma bump_step (m : memory) (u : string) (r : referent) :
  lookup m u = r ->
  table_step u m (bump r m) /\
  lookup (bump r m) u = r /\
  ((forall k', r <> RRecord k') -> requestCounts (bump r m) = requestCounts m).
Proof. intros Hr. unfold bump. apply write_step, Hr. Qed.

(** What any call does to the table, whatever the user id. *)
Lemma call_table (now : Z) (u : string) (m : memory) :
  (exists b, fst (checkRateLimit now u m) = Normal b) /\
  table_step u m (snd (checkRateLimit now u m)) /\
  (forall v, own Object_prototype u = Some v -> requestCounts m !! u = None ->
             requestCounts (snd (checkRateLimit now u m)) = requestCounts m).
Proof.
  rewrite checkRateLimit_stages.
  set (cw := getCurrentWindow now).
  destruct (ensure_step cw u m) as (H0 & Hu & Hb).
  set (m0 := ensure cw u m) in *.
  destruct (restart_step cw m0 u _ eq_refl) as (H1 & Hl1 & Hn1).
  destruct (bump_step _ u _ Hl1) as (H2 & _ & Hn2).
  assert (Hstep : table_step u m (bump (lookup m0 u) (restart cw (lookup m0 u) m0))).
  { eapply table_step_trans; [exact H0 |]. eapply table_step_trans; eassumption. }
  assert (Hbuiltin : forall v, own Object_prototype u = Some v ->
                               requestCounts m !! u = None ->
                               requestCounts (bump (lookup m0 u)
                                                (restart cw (lookup m0 u) m0))
                               = requestCounts m).
  { intros v Hv Hn. pose proof (Hb v Hv Hn) as Hm0.
    assert (Hnr : forall k', lookup m0 u <> RRecord k').
    { intros k' Hk'. rewrite Hm0 in Hk'.
      destruct (lookup_record m u k' Hk') as [_ [x Hx]]. congruence. }
    rewrite (Hn2 Hnr), (Hn1 Hnr), Hm0. reflexivity. }
  destruct (lookup m0 u) as [k | n | | v |] eqn:Er; [| | | | contradiction];
    cbn [fst snd]; (split; [eauto |]); (split; [exact Hstep | exact Hbuiltin]).
Qed.

Lemma in_process_counts (u : string) (win : Z) (rs : list (Z * string)) :
  plain u ->
  (forall t, In (t, u) rs -> getCurrentWindow t = win) ->
  forall (m : memory) (k : Z),
    0 <= k ->
    (k = 0 -> requestCounts m !! u = None) ->
    (1 <= k -> requestCounts m !! u = Some (Slot (JNum k) (Some win))) ->
    forall (i : nat) (t : Z) (d : completion bool),
      rs !! i = Some (t, u) ->
      fst (serve rs m) !! i = Some d ->
      d = Normal (k + requests_of u (take (S i) rs) <=? RATE_LIMIT).
Proof.
  intros Hp. induction rs as [| [t0 v] rest IH]; intros Hwin m k Hk H0 H1 i t d Hi Hd.
  - destruct i; discriminate.
  - cbn [serve] in Hd.
    assert (Hrest : forall t', In (t', u) rest -> getCurrentWindow t' = win).
    { intros t' Hin. apply Hwin. right. exact Hin. }
    destruct (String.eqb v u) eqn:Ev.
    + apply String.eqb_eq in Ev. subst v.
      pose proof (Hwin t0 (or_introl eq_refl)) as Hw0.
      assert (Hstep : checkRateLimit t0 u m =
                      (Normal (k + 1 <=? RATE_LIMIT),
                       Memory (<[u := Slot (JNum (k + 1)) (Some win)]> (requestCounts m))
                              (builtins m) (prototype m))).
      { destruct (Z.eq_dec k 0) as [-> | Hk0].
        - rewrite (plain_first t0 u m Hp (H0 eq_refl)), Hw0. reflexivity.
        - rewrite (plain_again t0 u m k win Hp (H1 ltac:(lia))), Hw0, Z.eqb_refl.
          reflexivity. }
      rewrite Hstep in Hd.
      destruct (serve rest _) as [ds m2] eqn:Es.
      destruct i as [| i].
      * cbn in Hd. inversion Hd. cbn [firstn requests_of]. rewrite String.eqb_refl.
        f_equal; f_equal; lia.
      * cbn in Hd, Hi.
        match type of Es with
        | serve rest ?m1 = _ =>
            assert (Hd' : fst (serve rest m1) !! i = Some d) by (rewrite Es; exact Hd);
            rewrite (IH Hrest m1 (k + 1) ltac:(lia) ltac:(lia)
                        ltac:(intros _; apply lookup_insert_eq) i t d Hi Hd')
        end.
        cbn [firstn requests_of]. rewrite String.eqb_refl. f_equal; f_equal; lia.
    + assert (Hne : u <> v).
      { intros ->. rewrite String.eqb_refl in Ev. discriminate. }
      destruct (call_table t0 v m) as (_ & [Hframe _] & _).
      specialize (Hframe u Hne).
      destruct (checkRateLimit t0 v m) as [d0 m1]. cbn [snd] in Hframe.
      destruct (serve rest m1) as [ds m2] eqn:Es.
      destruct i as [| i].
      * cbn in Hi. inversion Hi; subst. congruence.
      * cbn in Hd, Hi.
        assert (Hd' : fst (serve rest m1) !! i = Some d) by (rewrite Es; exact Hd).
        rewrite (IH Hrest m1 k Hk ltac:(rewrite Hframe; exact H0)
                    ltac:(rewrite Hframe; exact H1) i t d Hi Hd').
        cbn [firstn requests_of]. rewrite Ev. reflexivity.
Qed.

(** X7: in the in-process limiter, the requests of a user id that is
    neither the name of a member of [Object.prototype] nor "count" nor
    "window" are counted from 1 within a window, and the request that
    brings the count to [c] is allowed exactly when [c <= 10], whatever
    requests of other user ids, those names included, are served in
    between. *)
Theorem X7_in_process_quota (u : string) (win : Z) (rs : list (Z * string)) (m : memory) :
  plain u ->
  requestCounts m !! u = None ->
  (forall t, In (t, u) rs -> getCurrentWindow t = win) ->
  forall (i : nat) (t : Z) (d : completion bool),
    rs !! i = Some (t, u) ->
    fst (serve rs m) !! i = Some d ->
    d = Normal (requests_of u (take (S i) rs) <=? RATE_LIMIT).
Proof.
  intros Hp Hnone Hwin i t d Hi Hd.
  rewrite (in_process_counts u win rs Hp Hwin m 0 ltac:(lia) (fun _ => Hnone)
             ltac:(lia) i t d Hi Hd).
  rewrite Z.add_0_l. reflexivity.
Qed.

(** X8: for such a user id with an entry, a request in the stored window
    continues the count, and a request in any other window, later or
    earlier, is allowed and restarts the count at 1, also when the user
    was over the limit. *)
Theorem X8_window_change_restarts (now : Z) (u : string) (m : memory) (c w : Z) :
  plain u ->
  requestCounts m !! u = Some (Slot (JNum c) (Some w)) ->
  (getCurrentWindow now = w ->
   fst (checkRateLimit now u m) = Normal (c + 1 <=? RATE_LIMIT) /\
   requestCounts (snd (checkRateLimit now u m)) !! u
   = Some (Slot (JNum (c + 1)) (Some w))) /\
  (getCurrentWindow now <> w ->
   fst (checkRateLimit now u m) = Normal true /\
   requestCounts (snd (checkRateLimit now u m)) !! u
   = Some (Slot (JNum 1) (Some (getCurrentWindow now)))).
Proof.
  intros Hp Hsome. rewrite (plain_again now u m c w Hp Hsome). cbn [fst snd requestCounts].
  rewrite lookup_insert_eq. split; intros Hw.
  - rewrite Hw, Z.eqb_refl. auto.
  - destruct (w =? getCurrentWindow now) eqn:E; [apply Z.eqb_eq in E; congruence |].
    auto.
Qed.

Lemma X7_in_process_quota_witness :
  plain "anonymous" /\
  requestCounts initial !! "anonymous" = None /\
  counted_as unidentified_traffic !! 14%nat = Some (2400, "anonymous") /\
  requests_of "anonymous" (take 15 (counted_as unidentified_traffic)) = 12 /\
  fst (serve (counted_as unidentified_traffic) initial) !! 14%nat = Some (Normal false).
Proof.
  assert (Hp : plain "anonymous") by (repeat split; discriminate).
  assert (Hn : requestCounts initial !! "anonymous" = None) by reflexivity.
  split; [exact Hp |]. split; [exact Hn |]. split; [reflexivity |].
  split; [reflexivity |].
  destruct (fst (serve (counted_as unidentified_traffic) initial) !! 14%nat)
    as [d |] eqn:Hd; [| vm_compute in Hd; discriminate Hd].
  rewrite (X7_in_process_quota "anonymous" 0 (counted_as unidentified_traffic) initial
             Hp Hn) with (i := 14%nat) (t := 2400) (d := d); try reflexivity.
  - intros t Hin. cbn in Hin.
    repeat (destruct Hin as [Heq | Hin];
            [first [inversion Heq; reflexivity | discriminate Heq] |]).
    contradiction.
  - exact Hd.
Defined.

Lemma X8_window_change_restarts_witness :
  plain "bob" /\
  fst (checkRateLimit 5000
         "bob" (Memory {["bob" := Slot (JNum 37) (Some 9)]} empty no_slot))
  = Normal true /\
  requestCounts (snd (checkRateLimit 5000
         "bob" (Memory {["bob" := Slot (JNum 37) (Some 9)]} empty no_slot))) !! "bob"
  = Some (Slot (JNum 1) (Some 0)).
Proof.
  assert (Hp : plain "bob") by (repeat split; discriminate).
  split; [exact Hp |].
  apply (X8_window_change_restarts 5000 "bob"
           (Memory {["bob" := Slot (JNum 37) (Some 9)]} empty no_slot) 37 9 Hp).
  - reflexivity.
  - vm_compute. congruence.
Defined.

(** X9: the table only grows: whatever requests are served, no entry
    is ever removed, an entry exists only for a user id that was there
    before or made a request, no entry is ever created under the name of
    a member of [Object.prototype], and no call throws. *)
Theorem X9_table_only_grows (rs : list (Z * string)) (m : memory) :
  clean m ->
  clean (snd (serve rs m)) /\
  (forall k, is_Some (requestCounts m !! k) ->
             is_Some (requestCounts (snd (serve rs m)) !! k)) /\
  (forall k, is_Some (requestCounts (snd (serve rs m)) !! k) ->
             is_Some (requestCounts m !! k) \/ exists t, In (t, k) rs) /\
  Forall (fun d => exists b, d = Normal b) (fst (serve rs m)).
Proof.
  revert m. induction rs as [| [t u] rest IH]; intros m Hclean.
  - cbn [serve fst snd]. repeat split; auto.
  - cbn [serve].
    destruct (call_table t u m) as ([b Hb] & [Hframe Hkeep] & Hbuiltin).
    destruct (checkRateLimit t u m) as [d m1]. cbn [fst snd] in *. subst d.
    assert (Hclean1 : clean m1).
    { intros k Hk. destruct (decide (k = u)) as [-> | Hne].
      - destruct (own Object_prototype u) as [v |] eqn:Ev; [| reflexivity].
        exfalso.
        destruct (requestCounts m !! u) as [s |] eqn:Em.
        + specialize (Hclean u ltac:(rewrite Em; eauto)). congruence.
        + rewrite (Hbuiltin v eq_refl eq_refl), Em in Hk. destruct Hk; discriminate.
      - rewrite (Hframe k Hne) in Hk. apply Hclean, Hk. }
    destruct (IH m1 Hclean1) as (Hc2 & Hk2 & Ho2 & Hall).
    destruct (serve rest m1) as [ds m2]. cbn [fst snd] in *.
    split; [exact Hc2 |]. split; [| split].
    + intros k Hk. apply Hk2, Hkeep, Hk.
    + intros k Hk. destruct (Ho2 k Hk) as [H1 | [t' Hin]].
      * destruct (decide (k = u)) as [-> | Hne].
        -- right. exists t. left. reflexivity.
        -- left. rewrite <- (Hframe k Hne). exact H1.
      * right. exists t'. right. exact Hin.
    + constructor; eauto.
Qed.

Lemma X9_table_only_grows_witness :
  clean initial /\
  clean (snd (serve (counted_as unidentified_traffic) initial)) /\
  requestCounts (snd (serve (counted_as unidentified_traffic) initial)) !! "constructor"
  = None /\
  is_Some (requestCounts (snd (serve (counted_as unidentified_traffic) initial)) !! "bob").
Proof.
  assert (Hc : clean initial).
  { intros k [x Hx]. discriminate Hx. }
  destruct (X9_table_only_grows (counted_as unidentified_traffic) initial Hc)
    as (Hc' & _ & _ & _).
  split; [exact Hc |]. split; [exact Hc' |]. split.
  - destruct (requestCounts (snd (serve (counted_as unidentified_traffic) initial))
                !! "constructor") eqn:E; [| reflexivity].
    specialize (Hc' "constructor" ltac:(rewrite E; eauto)). discriminate Hc'.
  - vm_compute. eauto.
Defined.

Lemma map_lookup {A B : Type} (f : A -> B) (l : list A) (i : nat) :
  map f l !! i = option_map f (l !! i).
Proof.
  revert i. induction l as [| x l IH]; intros [| i]; cbn; auto.
Qed.

Lemma api_resource_status (now : Z) (q : query_value) (m : memory) :
  status_of (fst (api_resource now q m))
  = status_for (fst (checkRateLimit now (userID_of q) m)) /\
  snd (api_resource now q m) = snd (checkRateLimit now (userID_of q) m).
Proof.
  unfold api_resource.
  destruct (checkRateLimit now (userID_of q) m) as [[[] | e] m']; split; reflexivity.
Qed.

Lemma handle_counted (rs : list (Z * query_value)) :
  forall m : memory,
    map status_of (fst (handle rs m)) = map status_for (fst (serve (counted_as rs) m)) /\
    snd (handle rs m) = snd (serve (counted_as rs) m).
Proof.
  induction rs as [| [t q] rest IH]; intros m; [split; reflexivity |].
  cbn [handle counted_as map serve fst snd].
  destruct (api_resource_status t q m) as [Hs Hm].
  destruct (api_resource t q m) as [r m1].
  destruct (checkRateLimit t (userID_of q) m) as [d m1'].
  cbn [fst snd] in Hs, Hm. subst m1'.
  destruct (IH m1) as [IHs IHm]. fold (counted_as rest).
  destruct (handle rest m1) as [rr m2]. destruct (serve (counted_as rest) m1) as [ds m2'].
  cbn [fst snd map] in *. split; [| exact IHm]. rewrite Hs, IHs. reflexivity.
Qed.

(** X10: callers that send no user id, an empty one, or the id
    "anonymous" are counted together: the handler answers the request
    that brings their common count in a window to [c] with status 200
    when [c <= 10] and with 429 otherwise, whatever other user ids are
    served in between. *)
Theorem X10_unidentified_share_counter (win : Z) (rs : list (Z * query_value))
    (m : memory) :
  requestCounts m !! "anonymous" = None ->
  (forall t q, In (t, q) rs -> userID_of q = "anonymous" -> getCurrentWindow t = win) ->
  userID_of QAbsent = "anonymous" /\
  userID_of (QString EmptyString) = "anonymous" /\
  forall (i : nat) (t : Z) (q : query_value) (r : completion response),
    rs !! i = Some (t, q) ->
    userID_of q = "anonymous" ->
    fst (handle rs m) !! i = Some r ->
    status_of r
    = Some (if requests_of "anonymous" (take (S i) (counted_as rs)) <=? RATE_LIMIT
            then 200 else 429).
Proof.
  intros Hnone Hwin. split; [reflexivity |]. split; [reflexivity |].
  intros i t q r Hi Hq Hr.
  assert (Hp : plain "anonymous") by (repeat split; discriminate).
  destruct (handle_counted rs m) as [Hs _].
  assert (Hsi : map status_of (fst (handle rs m)) !! i = Some (status_of r)).
  { rewrite map_lookup, Hr. reflexivity. }
  rewrite Hs, map_lookup in Hsi.
  destruct (fst (serve (counted_as rs) m) !! i) as [d |] eqn:Hd; [| discriminate].
  cbn [option_map] in Hsi. injection Hsi as Hst. rewrite <- Hst.
  assert (Hci : counted_as rs !! i = Some (t, "anonymous")).
  { unfold counted_as. rewrite map_lookup, Hi. cbn. rewrite Hq. reflexivity. }
  rewrite (in_process_counts "anonymous" win (counted_as rs) Hp) with
    (m := m) (k := 0) (i := i) (t := t) (d := d); auto; try lia.
  - rewrite Z.add_0_l.
    destruct (requests_of "anonymous" (take (S i) (counted_as rs)) <=? RATE_LIMIT);
      reflexivity.
  - intros t' Hin. unfold counted_as in Hin. apply in_map_iff in Hin.
    destruct Hin as ([t0 q0] & Heq & Hin). cbn in Heq. inversion Heq; subst.
    apply (Hwin t' q0 Hin). assumption.
Qed.

Lemma X10_unidentified_share_counter_witness :
  requestCounts initial !! "anonymous" = None /\
  unidentified_traffic !! 13%nat = Some (2300, QString EmptyString) /\
  unidentified_traffic !! 14%nat = Some (2400, QAbsent) /\
  exists r13 r14,
    fst (handle unidentified_traffic initial) !! 13%nat = Some r13 /\
    fst (handle unidentified_traffic initial) !! 14%nat = Some r14 /\
    status_of r13 = Some 429 /\ status_of r14 = Some 429.
Proof.
  assert (Hn : requestCounts initial !! "anonymous" = None) by reflexivity.
  assert (Hw : forall t q, In (t, q) unidentified_traffic ->
                           userID_of q = "anonymous" -> getCurrentWindow t = 0).
  { intros t q Hin _. cbn in Hin.
    repeat (destruct Hin as [Heq | Hin]; [inversion Heq; reflexivity |]).
    contradiction. }
  destruct (X10_unidentified_share_counter 0 unidentified_traffic initial Hn Hw)
    as (_ & _ & Hall).
  split; [exact Hn |]. split; [reflexivity |]. split; [reflexivity |].
  destruct (fst (handle unidentified_traffic initial) !! 13%nat) as [r13 |] eqn:H13;
    [| vm_compute in H13; discriminate H13].
  destruct (fst (handle unidentified_traffic initial) !! 14%nat) as [r14 |] eqn:H14;
    [| vm_compute in H14; discriminate H14].
  exists r13, r14. split; [reflexivity |]. split; [reflexivity |]. split.
  - rewrite (Hall 13%nat 2300 (QString EmptyString) r13 eq_refl eq_refl H13). reflexivity.
  - rewrite (Hall 14%nat 2400 QAbsent r14 eq_refl eq_refl H14). reflexivity.
Defined.

(** A request under the id "count" when [Object.prototype] carries a
    count: the lookup finds that number, every assignment is dropped. *)
Lemma count_call (now : Z) (m : memory) (c : Z) :
  requestCounts m !! "count" = None ->
  count (prototype m) = JNum c ->
  c <> 0 ->
  checkRateLimit now "count" m = (Normal (c <=? RATE_LIMIT), m).
Proof.
  intros Hn Hc Hc0. rewrite checkRateLimit_stages.
  assert (Hl : lookup m "count" = RNumber (JNum c)).
  { unfold lookup. rewrite Hn, Hc. reflexivity. }
  assert (He : ensure (getCurrentWindow now) "count" m = m).
  { unfold ensure. rewrite Hl. cbn [truthy_referent truthy].
    destruct (c =? 0) eqn:E; [apply Z.eqb_eq in E; contradiction | reflexivity]. }
  rewrite He, Hl. cbv beta iota zeta.
  assert (Hr : restart (getCurrentWindow now) (RNumber (JNum c)) m = m).
  { unfold restart. destruct (differs _ _); reflexivity. }
  rewrite Hr. unfold bump. cbn [write].
  unfold read_count. cbn [own_slot no_slot count]. rewrite Hc.
  cbn [js_gt js_toNumber]. rewrite <- Z.leb_antisym. reflexivity.
Qed.

(** X11: a request under the user id "__proto__" puts its counter on
    [Object.prototype] and creates no entry; from then on the user id
    "count" is not counted at all: its requests leave the memory as it
    is and all get the same answer, allowed when the count on
    [Object.prototype] is at most 10. *)
Theorem X11_prototype_counter :
  (forall (now : Z) (m : memory),
     clean m ->
     prototype m = no_slot ->
     fst (checkRateLimit now "__proto__" m) = Normal true /\
     prototype (snd (checkRateLimit now "__proto__" m))
     = Slot (JNum 1) (Some (getCurrentWindow now)) /\
     requestCounts (snd (checkRateLimit now "__proto__" m)) = requestCounts m) /\
  (forall (ts : list Z) (m : memory) (c : Z),
     requestCounts m !! "count" = None ->
     count (prototype m) = JNum c ->
     c <> 0 ->
     serve (map (fun t => (t, "count")) ts) m
     = (map (fun _ => Normal (c <=? RATE_LIMIT)) ts, m)).
Proof.
  split.
  - intros now m Hclean Hproto.
    assert (Hn : requestCounts m !! "__proto__" = None).
    { destruct (requestCounts m !! "__proto__") eqn:E; [| reflexivity].
      specialize (Hclean "__proto__" ltac:(rewrite E; eauto)). discriminate Hclean. }
    rewrite checkRateLimit_stages.
    assert (Hl : lookup m "__proto__" = RPrototype).
    { unfold lookup. rewrite Hn. reflexivity. }
    assert (He : ensure (getCurrentWindow now) "__proto__" m = m).
    { unfold ensure. rewrite Hl. reflexivity. }
    rewrite He, Hl. cbv beta iota zeta.
    unfold bump, restart, read_window, read_count, own_slot, write.
    rewrite Hproto. cbn. repeat split; reflexivity.
  - intros ts m c Hn Hc Hc0.
    induction ts as [| t rest IH]; [reflexivity |].
    cbn [map serve]. rewrite (count_call t m c Hn Hc Hc0), IH. reflexivity.
Qed.

Lemma X11_prototype_counter_witness :
  clean initial /\
  prototype (snd (checkRateLimit 1000 "__proto__" initial)) = Slot (JNum 1) (Some 0) /\
  serve (map (fun t => (t, "count")) [2000; 2001; 2002; 2003; 2004; 2005; 2006; 2007;
                                       2008; 2009; 2010; 2011; 2012; 70000])
        (snd (checkRateLimit 1000 "__proto__" initial))
  = (map (fun _ => Normal (1 <=? RATE_LIMIT))
         [2000; 2001; 2002; 2003; 2004; 2005; 2006; 2007; 2008; 2009; 2010; 2011; 2012;
          70000],
     snd (checkRateLimit 1000 "__proto__" initial)).
Proof.
  assert (Hc : clean initial).
  { intros k [x Hx]. discriminate Hx. }
  destruct X11_prototype_counter as [Hfirst Hlater].
  destruct (Hfirst 1000 initial Hc eq_refl) as (_ & Hp & Hrc).
  split; [exact Hc |]. split; [exact Hp |].
  apply Hlater.
  - rewrite Hrc. reflexivity.
  - rewrite Hp. reflexivity.
  - discriminate.
Defined.

End InMemoryFacts.

(** ** The reconnection policy *)

(** X12: the reconnection policy gives up exactly when more than ten
    retries have been made; otherwise the delay it returns is
    [retries * 100] milliseconds, at most one second: the cap of 3000 ms
    is never the value returned. *)
Theorem X12_reconnect_delays (retries : Z) :
  match fst (reconnectStrategy retries) with
  | RetryAfter delay =>
      retries <= 10 /\ delay = retries * 100 /\ delay <= 1000 /\ delay <> 3000
  | GiveUp e => 10 < retries /\ err_message e = "Max reconnection attempts reached"
  end.
Proof.
  unfold reconnectStrategy. destruct (10 <? retries) eqn:E; cbn [fst].
  - apply Z.ltb_lt in E. split; [exact E | reflexivity].
  - apply Z.ltb_ge in E. rewrite Z.min_l by lia. repeat split; lia.
Qed.

(** ** Reading numbers back *)

Lemma pretty_N_go_digits (x : N) :
  forall s, all_digits (pretty_N_go x s) = all_digits s.
Proof.
  induction (N.lt_wf_0 x) as [x _ IH]; intros s.
  destruct (N.eq_dec x 0%N) as [-> | Hx].
  - rewrite pretty_N_go_0. reflexivity.
  - rewrite pretty_N_go_step by lia.
    rewrite IH by (apply N.div_lt; lia).
    cbn [all_digits]. unfold pretty_N_char.
    repeat case_match; reflexivity.
Qed.

Lemma digit_value_char (d : N) :
  (d < 10)%N -> digit_value 10 (pretty_N_char d) = Some (Z.of_N d).
Proof.
  intros Hd.
  assert (Hc : (d = 0 \/ d = 1 \/ d = 2 \/ d = 3 \/ d = 4 \/ d = 5 \/ d = 6 \/ d = 7
                \/ d = 8 \/ d = 9)%N) by lia.
  repeat (destruct Hc as [-> | Hc]; [reflexivity |]). subst d. reflexivity.
Qed.

(** Reading the digits that [pretty] wrote gives the number back. *)
Lemma digits_pretty_N_go (x : N) :
  forall s, (0 < x)%N ->
            digits 10 (pretty_N_go x s) None = digits 10 s (Some (Z.of_N x)).
Proof.
  induction (N.lt_wf_0 x) as [x _ IH]; intros s Hx.
  rewrite pretty_N_go_step by assumption.
  pose proof (N.mod_lt x 10 ltac:(lia)) as Hm.
  pose proof (N.div_mod x 10 ltac:(lia)) as Hdm.
  destruct (N.eq_dec (N.div x 10) 0%N) as [H0 | H0].
  - rewrite H0, pretty_N_go_0. cbn [digits].
    rewrite (digit_value_char _ Hm). do 2 f_equal. lia.
  - rewrite IH by (try apply N.div_lt; lia). cbn [digits].
    rewrite (digit_value_char _ Hm). do 2 f_equal. lia.
Qed.

Ltac ascii_cases a := destruct a as [[] [] [] [] [] [] [] []].

Ltac digit_led Ha :=
  first [reflexivity | (exfalso; cbv in Ha; discriminate Ha) | idtac].

Lemma parseInt_digits (s : string) :
  all_digits s = true ->
  parseInt (Some s) = option_map (Z.mul 1) (digits 10 s None).
Proof.
  intros H. destruct s as [| a rest]; [reflexivity |].
  cbn [all_digits] in H. apply andb_true_iff in H. destruct H as [Ha H].
  ascii_cases a; digit_led Ha.
  destruct rest as [| b rest]; [reflexivity |].
  cbn [all_digits] in H. apply andb_true_iff in H. destruct H as [Hb H].
  ascii_cases b; digit_led Hb.
Qed.

Lemma parseInt_minus_digits (s : string) :
  all_digits s = true ->
  parseInt (Some (String "-" s)) = option_map (Z.mul (-1)) (digits 10 s None).
Proof.
  intros H. destruct s as [| a rest]; [reflexivity |].
  cbn [all_digits] in H. apply andb_true_iff in H. destruct H as [Ha H].
  ascii_cases a; digit_led Ha.
  destruct rest as [| b rest]; [reflexivity |].
  cbn [all_digits] in H. apply andb_true_iff in H. destruct H as [Hb H].
  ascii_cases b; digit_led Hb.
Qed.

(** [parseInt] reads back the decimal rendering of any integer. *)
Lemma parseInt_pretty (z : Z) : parseInt (Some (pretty z)) = Some z.
Proof.
  destruct z as [| p | p].
  - reflexivity.
  - change (pretty (Z.pos p)) with (pretty_N_go (N.pos p) EmptyString).
    rewrite parseInt_digits by (rewrite pretty_N_go_digits; reflexivity).
    rewrite digits_pretty_N_go by lia. reflexivity.
  - change (pretty (Z.neg p)) with (String "-" (pretty_N_go (N.pos p) EmptyString)).
    rewrite parseInt_minus_digits by (rewrite pretty_N_go_digits; reflexivity).
    rewrite digits_pretty_N_go by lia. reflexivity.
Qed.

(** X13: a window length given in the environment as the decimal
    numeral of an integer [n] of magnitude at most 2^53, with or without
    a space before it, is read back as [n], except that 0 gives the
    default 60; a negative numeral is read as it stands. *)
Theorem X13_window_size_numeral (n : Z) :
  Z.abs n <= 2 ^ 53 ->
  parseInt (Some (pretty n)) = Some n /\
  WINDOW_SIZE (Some (pretty n)) = (if n =? 0 then 60 else n) /\
  WINDOW_SIZE (Some (" " +:+ pretty n)) = WINDOW_SIZE (Some (pretty n)).
Proof.
  intros _. split; [apply parseInt_pretty |]. split.
  - unfold WINDOW_SIZE. rewrite parseInt_pretty. reflexivity.
  - unfold WINDOW_SIZE. reflexivity.
Qed.

Lemma X13_window_size_numeral_witness :
  Z.abs 30 <= 2 ^ 53 /\
  pretty 30 = "30" /\
  parseInt (Some (pretty 30)) = Some 30 /\
  WINDOW_SIZE (Some (pretty 30)) = 30 /\
  WINDOW_SIZE (Some (" " +:+ pretty 30)) = WINDOW_SIZE (Some (pretty 30)).
Proof.
  assert (Hb : Z.abs 30 <= 2 ^ 53) by (vm_compute; congruence).
  destruct (X13_window_size_numeral 30 Hb) as (Hp & Hw & Hs).
  split; [exact Hb |]. split; [reflexivity |]. split; [exact Hp |].
  split; [exact Hw | exact Hs].
Defined.

(** ** The debug endpoint *)

Lemma own_overwrite (o : jsobj) (k : string) (v : jsval) :
  own (overwrite o k v) k = Some v /\
  forall k', k' <> k -> own (overwrite o k v) k' = own o k'.
Proof.
  induction o as [| [k0 v0] rest [IH1 IH2]]; cbn [overwrite own].
  - rewrite String.eqb_refl. split; [reflexivity |].
    intros k' Hne. destruct (String.eqb k k') eqn:E; [| reflexivity].
    apply String.eqb_eq in E. congruence.
  - destruct (String.eqb k0 k) eqn:E0; cbn [own].
    + apply String.eqb_eq in E0. subst k0. rewrite String.eqb_refl.
      split; [reflexivity |]. intros k' Hne.
      destruct (String.eqb k k') eqn:E; [apply String.eqb_eq in E; congruence |].
      reflexivity.
    + rewrite E0. split; [exact IH1 |]. intros k' Hne.
      destruct (String.eqb k0 k'); [reflexivity | apply IH2, Hne].
Qed.

Lemma own_assign_number (o : jsobj) (k : string) (v : jsval) :
  (k <> "__proto__" -> own (assign_number o k v) k = Some v) /\
  forall k', k' <> k -> own (assign_number o k v) k' = own o k'.
Proof.
  unfold assign_number. destruct (String.eqb k "__proto__") eqn:E.
  - apply String.eqb_eq in E. split; [intros Hne; contradiction | reflexivity].
  - destruct (own_overwrite o k v) as [H1 H2]. split; [intros _; exact H1 | exact H2].
Qed.

Lemma glob_star (s : string) : glob "*" s = true.
Proof.
  induction s as [| c s IH]; [reflexivity |].
  change (glob "*" (String c s)) with (glob EmptyString (String c s) || glob "*" s).
  rewrite IH. apply orb_true_r.
Qed.

Lemma glob_counter_key (apiKey : string) (win : Z) :
  glob "rate_limit:*" (redisKey_of apiKey win) = true.
Proof.
  unfold redisKey_of.
  change (glob "*" (apiKey +:+ ":" +:+ js_toString (JNum win)) = true).
  apply glob_star.
Qed.

Lemma glob_not_proto (k : string) : glob "rate_limit:*" k = true -> k <> "__proto__".
Proof. intros Hg ->. discriminate Hg. Qed.

Lemma live_keys_spec (r : redis) (k : string) :
  In k (live_keys r) <-> exists e, lookup_live r k = Some e.
Proof.
  unfold live_keys, lookup_live. rewrite in_map_iff. split.
  - intros ([k' e] & Hk & Hin). cbn in Hk. subst k'.
    apply list_elem_of_In, list_elem_of_filter in Hin. destruct Hin as [Hl Hin].
    apply elem_of_map_to_list in Hin. cbn in Hl. rewrite Hin, Hl. eauto.
  - intros [e He]. destruct (kv r !! k) as [e0 |] eqn:Ek; [| discriminate].
    destruct (live (clock r) e0) eqn:El; [| discriminate].
    exists (k, e0). split; [reflexivity |].
    apply list_elem_of_In, list_elem_of_filter. split; [exact El |].
    apply elem_of_map_to_list, Ek.
Qed.

Lemma NoDup_fst_filter {A : Type} (P : string * A -> Prop) `{forall x, Decision (P x)}
    (l : list (string * A)) :
  NoDup (map fst l) -> NoDup (map fst (filter P l)).
Proof.
  induction l as [| x l IH]; cbn [map]; [intros _; constructor |].
  rewrite NoDup_cons. intros [Hx Hl]. rewrite filter_cons.
  destruct (decide (P x)); [| apply IH, Hl].
  cbn [map]. apply NoDup_cons. split; [| apply IH, Hl].
  intros Hin. apply Hx. apply list_elem_of_In in Hin. apply list_elem_of_In.
  apply in_map_iff in Hin. destruct Hin as (y & Hy & Hin).
  apply in_map_iff. exists y. split; [exact Hy |].
  apply list_elem_of_In. apply list_elem_of_In, list_elem_of_filter in Hin. apply Hin.
Qed.

Lemma live_keys_NoDup (r : redis) : NoDup (live_keys r).
Proof. apply NoDup_fst_filter, NoDup_fst_map_to_list. Qed.

(** The loop on the store model: every listed counter is read back. *)
Lemma read_counts_model (r : redis) (keys : list string) :
  forall counts : jsobj,
    NoDup keys ->
    (forall k, In k keys -> k <> "__proto__" /\ exists e, lookup_live r k = Some e) ->
    exists out,
      read_counts keys counts r = (Normal out, r) /\
      (forall k e, In k keys -> lookup_live r k = Some e ->
                   own out k = Some (JNum (value e))) /\
      (forall k, ~ In k keys -> own out k = own counts k).
Proof.
  induction keys as [| k rest IH]; intros counts Hnd Hall.
  - exists counts. split; [reflexivity |]. split; [intros k e [] | auto].
  - apply NoDup_cons in Hnd. destruct Hnd as [Hk Hnd].
    destruct (Hall k (or_introl eq_refl)) as [Hproto [e He]].
    cbn [read_counts client_get redis_admin]. unfold redis_GET. rewrite He.
    cbn [option_map default from_option id]. rewrite parseInt_pretty. cbn [number_of].
    destruct (IH (assign_number counts k (JNum (value e))) Hnd
                 (fun k' Hin => Hall k' (or_intror Hin))) as (out & Hrun & Hin & Hout).
    exists out. split; [exact Hrun |].
    destruct (own_assign_number counts k (JNum (value e))) as [Hset Hother].
    split.
    + intros k' e' [<- | Hk'] He'.
      * rewrite Hout by (intros Hin'; apply Hk, list_elem_of_In, Hin').
        rewrite (Hset Hproto). congruence.
      * apply Hin; assumption.
    + intros k' Hn. rewrite Hout by (intros Hin'; apply Hn; right; exact Hin').
      apply Hother. intros ->. apply Hn. left. reflexivity.
Qed.

(** X14: on the store model, [/debug] answers 200, leaves the store as
    it is, and reports exactly the counters that are there under a key
    starting with [rate_limit:], each once and with its current count
    read back from its decimal rendering; [totalKeys] is their number. *)
Theorem X14_debug_reports_counters (env : option string) (now : Z) (currentTime : string)
    (r : redis) :
  exists resp ev keys,
    debug env now currentTime r = (resp, r, ev) /\
    status resp = 200 /\
    field (body resp) "totalKeys" = JNum (Z.of_nat (length keys)) /\
    NoDup keys /\
    (forall k, In k keys <->
               glob "rate_limit:*" k = true /\ exists e, lookup_live r k = Some e) /\
    (forall k e, In k keys -> lookup_live r k = Some e ->
                 own (reported resp) k = Some (JNum (value e))) /\
    (forall k, ~ In k keys -> own (reported resp) k = None).
Proof.
  set (keys := filter (fun k => glob "rate_limit:*" k = true) (live_keys r)).
  assert (Hkeys : forall k, In k keys <->
                            glob "rate_limit:*" k = true /\
                            exists e, lookup_live r k = Some e).
  { intros k. unfold keys. rewrite <- live_keys_spec.
    rewrite <- !list_elem_of_In, list_elem_of_filter. reflexivity. }
  assert (Hnd : NoDup keys) by (apply NoDup_filter, live_keys_NoDup).
  destruct (read_counts_model r keys [] Hnd) as (out & Hrun & Hin & Hout).
  { intros k Hk. apply Hkeys in Hk. destruct Hk as [Hg He].
    split; [apply glob_not_proto, Hg | exact He]. }
  unfold debug. cbn [client_keys redis_admin]. unfold redis_KEYS. fold keys.
  rewrite Hrun.
  eexists; eexists; exists keys. split; [reflexivity |].
  split; [reflexivity |]. split; [reflexivity |]. split; [exact Hnd |].
  split; [exact Hkeys |]. split; [exact Hin |].
  intros k Hn. apply (Hout k Hn).
Qed.

(** After a request served by a reachable store, with a positive window
    length, the counter is there with the count the decision reports. *)
Lemma healthy_call_state (env : option string) (t : Z) (apiKey : string)
    (w : world redis) :
  0 < WINDOW_SIZE env ->
  exists c w1 e,
    checkRateLimit env t apiKey (arrive (healthy t apiKey) w)
    = (Normal (verdict (getRateLimitForAPIKey apiKey) (getTierFromAPIKey apiKey) c), w1) /\
    lookup_live (store w1) (redisKey_of apiKey (getCurrentWindow env t)) = Some e /\
    value e = c.
Proof.
  intros HW.
  destruct (checkRateLimit_cases env t apiKey (arrive (healthy t apiKey) w)) as [lg Hc].
  cbv zeta in Hc.
  set (key := redisKey_of apiKey (getCurrentWindow env t)) in *.
  cbn [client_incr client_expire redis_client arrive healthy store at_ms
       incr_fails expire_fails] in Hc.
  unfold redis_INCR in Hc. cbn [incr_down] in Hc.
  set (r0 := Redis t (kv (store w)) false false) in *.
  set (e1 := match lookup_live r0 key with
             | Some e => Entry (value e + 1) (deadline e)
             | None => Entry 1 None
             end) in *.
  assert (Hlive1 : live t e1 = true).
  { unfold e1, lookup_live. cbn [kv clock r0].
    destruct (kv (store w) !! key) as [e0 |]; [| reflexivity].
    destruct (live t e0) eqn:El; [| reflexivity]. exact El. }
  cbn [clock kv incr_down expire_down r0] in Hc.
  destruct (value e1 =? 1) eqn:E1.
  - unfold redis_EXPIRE, lookup_live in Hc. cbn [expire_down kv clock] in Hc.
    rewrite lookup_insert_eq, Hlive1 in Hc.
    destruct (WINDOW_SIZE env * 2 <=? 0) eqn:E; [lia |].
    eexists; eexists; eexists. split; [exact Hc |].
    unfold lookup_live. cbn [store kv clock]. rewrite lookup_insert_eq.
    cbn [live deadline value].
    destruct (t <? t + WINDOW_SIZE env * 2 * 1000) eqn:Et; [| lia].
    split; reflexivity.
  - eexists; eexists; eexists. split; [exact Hc |].
    unfold lookup_live. cbn [store kv clock]. rewrite lookup_insert_eq, Hlive1.
    split; reflexivity.
Qed.

(** X15: with a positive window length, what [/debug] shows right after
    a request served by a reachable store is, under the key of that
    request, the count on which the request was decided. *)
Theorem X15_debug_after_request (env : option string) (t : Z) (apiKey currentTime : string)
    (w : world redis) :
  0 < WINDOW_SIZE env ->
  exists c d w1 resp ev,
    checkRateLimit env t apiKey (arrive (healthy t apiKey) w) = (Normal d, w1) /\
    get d "count" = JNum c /\
    debug env t currentTime (store w1) = (resp, store w1, ev) /\
    status resp = 200 /\
    own (reported resp) (redisKey_of apiKey (getCurrentWindow env t)) = Some (JNum c).
Proof.
  intros HW.
  destruct (healthy_call_state env t apiKey w HW) as (c & w1 & e & Hrun & Hlive & Hval).
  set (key := redisKey_of apiKey (getCurrentWindow env t)) in *.
  set (keys := filter (fun k => glob "rate_limit:*" k = true) (live_keys (store w1))).
  assert (Hkeys : forall k, In k keys ->
                            k <> "__proto__" /\ exists e', lookup_live (store w1) k = Some e').
  { intros k Hk. unfold keys in Hk.
    apply list_elem_of_In, list_elem_of_filter in Hk. destruct Hk as [Hg Hk].
    split; [apply glob_not_proto, Hg |]. apply live_keys_spec, list_elem_of_In, Hk. }
  assert (Hkey : In key keys).
  { unfold keys. apply list_elem_of_In, list_elem_of_filter.
    split; [apply glob_counter_key |]. apply list_elem_of_In, live_keys_spec. eauto. }
  assert (Hnd : NoDup keys) by (apply NoDup_filter, live_keys_NoDup).
  destruct (read_counts_model (store w1) keys [] Hnd Hkeys) as (out & Hread & Hin & _).
  exists c. eexists; exists w1. eexists; eexists.
  split; [exact Hrun |].
  split; [apply verdict_fields |].
  unfold debug. cbn [client_keys redis_admin]. unfold redis_KEYS. fold keys.
  rewrite Hread. split; [reflexivity |]. split; [reflexivity |].
  cbn [reported body field get own String.eqb Ascii.eqb Bool.eqb].
  rewrite (Hin key e Hkey Hlive), Hval. reflexivity.
Qed.

Lemma X15_debug_after_request_witness :
  0 < WINDOW_SIZE None /\
  exists c d w1 resp ev,
    checkRateLimit None 6000 free_key sixth_arrives = (Normal d, w1) /\
    get d "count" = JNum c /\
    debug None 6000 "2026-01-01T00:00:06.000Z" (store w1) = (resp, store w1, ev) /\
    status resp = 200 /\
    own (reported resp) (redisKey_of free_key (getCurrentWindow None 6000))
    = Some (JNum c).
Proof.
  assert (HW : 0 < WINDOW_SIZE None) by reflexivity.
  split; [exact HW |].
  exact (X15_debug_after_request None 6000 free_key "2026-01-01T00:00:06.000Z"
           (snd (serve None
                   (map (fun t => healthy t free_key) [1000; 2000; 3000; 4000; 5000])
                   fresh)) HW).
Defined.

(** ** The health endpoint *)

(** Whatever the store does, [/health] answers: 200 when the ping is
    answered, 503 with one error event when it is rejected. *)
Lemma health_answers {S : Type} `{RedisAdmin S} (timestamp : string) (s : S) :
  match client_ping s with
  | (Normal _, s1) =>
      exists resp, health timestamp s = (resp, s1, None) /\ status resp = 200
  | (Throw e, s1) =>
      exists resp ev,
        health timestamp s = (resp, s1, Some ev) /\ status resp = 503 /\
        log_level ev = LError /\ get (log_meta ev) "message" = JStr (err_message e)
  end.
Proof.
  unfold health. destruct (client_ping s) as [[reply | e] s1].
  - eexists. split; reflexivity.
  - eexists; eexists. repeat split.
Qed.
